(** * edx_prefectutils.edx_api_client: the authenticated, retrying, paginated client

    A shallow embedding of [src/edx_prefectutils/edx_api_client.py].

    - Python values that travel through the client (parsed JSON bodies, the
      value handed back by a pagination callable, the URL given to
      [session.get]) are values of [json]; [JNull] is Python's [None].
    - Time is an integer number of microseconds (the resolution of
      [datetime]), counted from [datetime.min]; [second] converts.
    - The outside world (the HTTP servers and the random source of the
      jitter) is a parameter of the development: [server] answers a request
      from the list of the requests sent before it, [rand] gives the k-th
      random draw.
    - Stateful code is written in a state-and-exception monad over the pair
      of the client object and the world; the two loops (the retry loop of
      [backoff.on_exception] and the consumption of the generator) take
      fuel and return [None] when it runs out. *)

From Stdlib Require Import ZArith List String Ascii Bool Lia.
From Stdlib Require DecimalString.
Import ListNotations.
Local Open Scope string_scope.
Local Open Scope Z_scope.

(** ** Python values *)

#[local] Set Warnings "-register-all".

Inductive json : Type :=
| JNull
| JBool (b : bool)
| JNum (n : Z)
| JStr (s : string)
| JArr (items : list json)
| JObj (fields : list (string * json)).

(** [x is None] *)
Definition is_None (v : json) : bool :=
  match v with JNull => true | _ => false end.

(** Python truth value: [None], [False], [0], [""], [[]] and [{}] are falsy. *)
Definition truthy (v : json) : bool :=
  match v with
  | JNull => false
  | JBool b => b
  | JNum n => negb (Z.eqb n 0)
  | JStr s => negb (String.eqb s "")
  | JArr items => match items with [] => false | _ => true end
  | JObj fields => match fields with [] => false | _ => true end
  end.

(** A parsed JSON object is an association list; the first binding of a key
    is the dictionary's value for it. *)
Fixpoint assoc {A} (k : string) (l : list (string * A)) : option A :=
  match l with
  | [] => None
  | (k', v) :: l' => if String.eqb k k' then Some v else assoc k l'
  end.

(** ** Exceptions *)

(** The members of [requests.exceptions.RequestException] the client meets. *)
Inductive request_exception_class : Type :=
| HTTPError
| ConnectionError
| Timeout
| MissingSchema
| InvalidURL
| JSONDecodeError.

Record Response : Type := mkResponse {
  status_code : Z;
  (** what [response.json()] returns; [None] when the body is not JSON *)
  body : option json
}.

Inductive exn : Type :=
| RequestException (cls : request_exception_class) (response : option Response)
| KeyError (key : string)
| AttributeError
| TypeError
| OverflowError
| OtherException (name : string).

(** [isinstance(e, requests.exceptions.RequestException)] *)
Definition is_RequestException (e : exn) : bool :=
  match e with RequestException _ _ => true | _ => false end.

(** [getattr(error, 'response', None)] *)
Definition error_response (e : exn) : option Response :=
  match e with RequestException _ r => r | _ => None end.

Inductive Result (A : Type) : Type :=
| Ok (a : A)
| Raise (e : exn).
Arguments Ok {A} a.
Arguments Raise {A} e.

(** [obj[key]] on a parsed JSON value *)
Definition py_getitem (obj : json) (key : string) : Result json :=
  match obj with
  | JObj fields =>
      match assoc key fields with
      | Some v => Ok v
      | None => Raise (KeyError key)
      end
  | _ => Raise TypeError
  end.

(** [obj.get(key, default)] on a parsed JSON value; only a dict has [get]. *)
Definition py_get (obj : json) (key : string) (default : json) : Result json :=
  match obj with
  | JObj fields =>
      match assoc key fields with
      | Some v => Ok v
      | None => Ok default
      end
  | _ => Raise AttributeError
  end.

(** ** Requests and the world *)

Inductive http_method : Type := GET | POST.

Record Request : Type := mkRequest {
  method : http_method;
  (** the URL exactly as the caller passed it *)
  target : json;
  params : option (list (string * string));
  data : list (string * json);
  (** the value of the Authorization header, when one is attached *)
  authorization : option string
}.

Record Reply : Type := mkReply {
  (** the response, or the exception [requests] raises instead *)
  outcome : exn + Response;
  (** wall-clock time the call takes *)
  elapsed : Z
}.

Record World : Type := mkWorld {
  clock : Z;
  (** every request issued so far, the latest first *)
  sent : list Request;
  (** number of random draws taken so far *)
  draws : nat
}.

Definition second : Z := 1000000.

(** ** Constants of the module *)

Definition DEFAULT_RETRY_STATUS_CODES : list Z := [408; 429; 503; 504; 502; 520].
Definition DEFAULT_TIMEOUT_SECONDS : Z := 7200 * second.

(** ** SuppliedAuth *)

Record SuppliedAuth : Type := mkSuppliedAuth {
  token : json;
  auth_token_type : json
}.

(** ** The client object *)

Record EdxApiClient : Type := mkClient {
  _expires_at : option Z;
  (** [self._session.auth] *)
  session_auth : option SuppliedAuth;
  client_id : json;
  client_secret : json;
  auth_url : json;
  token_type : json
}.

(** [EdxApiClient.__init__]: [token_type or 'jwt'] *)
Definition new_client (auth_url client_id client_secret token_type : json) : EdxApiClient :=
  {| _expires_at := None;
     session_auth := None;
     client_id := client_id;
     client_secret := client_secret;
     auth_url := auth_url;
     token_type := if truthy token_type then token_type else JStr "jwt" |}.

Definition State : Type := EdxApiClient * World.

(** ** The state-and-exception monad *)

Definition M (A : Type) : Type := State -> Result A * State.

Definition ret {A} (a : A) : M A := fun s => (Ok a, s).
Definition raise {A} (e : exn) : M A := fun s => (Raise e, s).
Definition bind {A B} (m : M A) (k : A -> M B) : M B :=
  fun s =>
    match m s with
    | (Ok a, s') => k a s'
    | (Raise e, s') => (Raise e, s')
    end.
Definition lift {A} (r : Result A) : M A := fun s => (r, s).

Declare Scope py_scope.
Delimit Scope py_scope with py.
Notation "x <- m ;; k" := (bind m (fun x => k))
  (at level 100, m at next level, right associativity) : py_scope.
Notation "m ;;; k" := (bind m (fun _ => k))
  (at level 100, right associativity) : py_scope.
Local Open Scope py_scope.

Definition get_self : M EdxApiClient := fun s => (Ok (fst s), s).
Definition put_self (c : EdxApiClient) : M unit := fun s => (Ok tt, (c, snd s)).
Definition get_world : M World := fun s => (Ok (snd s), s).
Definition put_world (w : World) : M unit := fun s => (Ok tt, (fst s, w)).

(** [datetime.utcnow()] *)
Definition utcnow : M Z := fun s => (Ok (clock (snd s)), s).

(** [time.sleep(seconds)] *)
Definition sleep (seconds : Z) : M unit :=
  fun s =>
    let w := snd s in
    (Ok tt, (fst s, {| clock := clock w + seconds; sent := sent w; draws := draws w |})).

(** [str(v)], as [str.format] inserts a field: a string is inserted as it
    is; [repr_container] stands for Python's rendering of a list or dict. *)
Definition py_str (repr_container : json -> string) (v : json) : string :=
  match v with
  | JNull => "None"
  | JBool true => "True"
  | JBool false => "False"
  | JNum n => DecimalString.NilZero.string_of_int (Z.to_int n)
  | JStr s => s
  | JArr _ | JObj _ => repr_container v
  end.

(** [timedelta(seconds=v)]: a number of seconds ([bool] is an [int]). A
    [timedelta] holds at most 999999999 days, in either direction; beyond
    that the constructor raises [OverflowError]. *)
Definition timedelta_seconds (v : json) : Result Z :=
  match v with
  | JNum n =>
      if (-999999999 <=? n / 86400) && (n / 86400 <=? 999999999)
      then Ok (n * second)
      else Raise OverflowError
  | JBool b => Ok (if b then second else 0)
  | _ => Raise TypeError
  end.

(** [datetime.max], 9999-12-31T23:59:59.999999, in microseconds from
    [datetime.min]: 3652059 days less one microsecond. *)
Definition datetime_max : Z := 3652059 * 86400 * 1000000 - 1.

(** [now + delta] for a datetime [now] and a timedelta [delta]: the sum is
    a datetime when it lies between [datetime.min] and [datetime.max],
    otherwise [OverflowError]. [now] is a datetime already, so an empty
    [delta] gives it back. *)
Definition datetime_add (now delta : Z) : Result Z :=
  if (delta =? 0) || ((0 <=? now + delta) && (now + delta <=? datetime_max))
  then Ok (now + delta)
  else Raise OverflowError.

(** [Response.raise_for_status]: 4xx and 5xx raise [HTTPError] carrying the
    response. *)
Definition raise_for_status (r : Response) : Result unit :=
  if (400 <=? status_code r) && (status_code r <? 600)
  then Raise (RequestException HTTPError (Some r))
  else Ok tt.

(** [Response.json] *)
Definition response_json (r : Response) : Result json :=
  match body r with
  | Some v => Ok v
  | None => Raise (RequestException JSONDecodeError None)
  end.

(** [x in retry_on] *)
Definition status_in (code : Z) (codes : list Z) : bool :=
  existsb (Z.eqb code) codes.

(** [backoff.expo()]: 1, 2, 4, ... seconds *)
Definition expo (n : nat) : Z := 2 ^ Z.of_nat n * second.

Definition ppm : Z := 1000000.

(** * prefect_utils.snowflake: connections and load tasks

    A shallow embedding of [src/prefect_utils/snowflake.py]. The Snowflake
    service is a parameter: [database] says whether an action on a
    connection raises, given the actions attempted before it, [fetched]
    is the row a [fetchone] returns and [key_bytes] is the decoding of the
    private key. The world is the list of the actions attempted so far. *)

Module Snowflake.

Inductive error : Type :=
| ProgrammingError (msg : string)
| TypeError
| AttributeError
| OtherError (name : string)
| BaseException (name : string).

(** [isinstance(e, Exception)]: [KeyboardInterrupt], [SystemExit] and the
    like are [BaseException]s outside [Exception]. *)
Definition is_Exception (e : error) : bool :=
  match e with
  | BaseException _ => false
  | _ => true
  end.

Inductive Result (A : Type) : Type :=
| Ok (a : A)
| Raise (e : error).
Arguments Ok {A} a.
Arguments Raise {A} e.

Inductive event : Type :=
| Connect (user account : json) (private_key : string) (autocommit warehouse : json)
| Execute (connection : nat) (query : string)
| Fetchone (connection : nat)
| Commit (connection : nat)
| Rollback (connection : nat)
| Close (connection : nat)
| Sleep (n : nat).

(** The actions attempted so far, the latest first. *)
Definition World : Type := list event.

Definition SM (A : Type) : Type := World -> Result A * World.

Definition ret {A} (a : A) : SM A := fun w => (Ok a, w).
Definition bind {A B} (m : SM A) (k : A -> SM B) : SM B :=
  fun w =>
    match m w with
    | (Ok a, w') => k a w'
    | (Raise e, w') => (Raise e, w')
    end.
Definition lift {A} (r : Result A) : SM A := fun w => (r, w).

Declare Scope sf_scope.
Delimit Scope sf_scope with sf.
Notation "x <- m ;; k" := (bind m (fun x => k))
  (at level 100, m at next level, right associativity) : sf_scope.
Notation "m ;;; k" := (bind m (fun _ => k))
  (at level 100, right associativity) : sf_scope.

(** [d.get(key)] *)
Definition dict_get (d : list (string * json)) (key : string) : json :=
  match assoc key d with
  | Some v => v
  | None => JNull
  end.

(** [v.encode()]: only a [str] has it here *)
Definition encode (v : json) : Result string :=
  match v with
  | JStr s => Ok s
  | _ => Raise AttributeError
  end.

(** [needle in haystack] on strings *)
Definition contains (needle haystack : string) : bool :=
  match String.index 0 needle haystack with
  | Some _ => true
  | None => false
  end.

(** [s.replace(old, new)] for a non-empty [old]: the occurrences of
    [old] are replaced from left to right, without overlap; [skip] counts
    the characters of an occurrence still to be dropped. *)
Fixpoint replace_from (skip : nat) (old new s : string) : string :=
  match s with
  | EmptyString => EmptyString
  | String c rest =>
      match skip with
      | S k => replace_from k old new rest
      | O =>
          if String.prefix old s
          then (new ++ replace_from (String.length old - 1) old new rest)%string
          else String c (replace_from 0 old new rest)
      end
  end.

Definition py_replace (old new s : string) : string := replace_from 0 old new s.

(** [str(b)] *)
Definition str_of_bool (b : bool) : string := if b then "True" else "False".

(** The truth value of what [fetchone] returns: a tuple, or [None]. *)
Definition row_found (row : option (list json)) : bool :=
  match row with
  | Some (_ :: _) => true
  | _ => false
  end.

Definition is_Connect (e : event) : bool :=
  match e with Connect _ _ _ _ _ => true | _ => false end.

Definition is_Sleep (e : event) : bool :=
  match e with Sleep _ => true | _ => false end.

(** ** The names *)

Definition qualified_table_name (database schema table : string) : string :=
  (database ++ "." ++ schema ++ "." ++ table)%string.

Definition qualified_stage_name (database schema table : string) : string :=
  (database ++ "." ++ schema ++ "." ++ table ++ "_stage")%string.

Definition qualified_pipe_name (database schema table : string) : string :=
  (database ++ "." ++ schema ++ "." ++ table ++ "_pipe")%string.

(** ** The statements: each is the template of the source, with its fields *)

Definition pipe_create_table (table : string) : string :=
  ("
        CREATE TABLE IF NOT EXISTS " ++ table ++ " (
            ID NUMBER AUTOINCREMENT START 1 INCREMENT 1,
            LOAD TIMESTAMP_LTZ DEFAULT CURRENT_TIMESTAMP(),
            ORIGIN_FILE_NAME VARCHAR(16777216),
            ORIGIN_FILE_LINE NUMBER(38,0),
            ORIGIN_STR VARCHAR(16777216),
            PROPERTIES VARIANT
        );
        ")%string.

Definition pipe_create_stage (stage_name stage_url storage_integration file_format_type : string) : string :=
  ("
        CREATE OR REPLACE STAGE " ++ stage_name ++ "
            URL = '" ++ stage_url ++ "'
            STORAGE_INTEGRATION = " ++ storage_integration ++ "
            FILE_FORMAT = (TYPE = " ++ file_format_type ++ ");
        ")%string.

Definition pipe_create_pipe (pipe_name table stage_name file_format_type : string) : string :=
  ("
        CREATE PIPE IF NOT EXISTS " ++ pipe_name ++ "
        AUTO_INGEST = FALSE
        COMMENT = 'Automatically generated by prefect_utils.'
        AS
            COPY INTO " ++ table ++ " (origin_file_name, origin_file_line, origin_str, properties)
            FROM (
            SELECT
              metadata$filename,
              metadata$file_row_number,
              -- Insert JSON into the VARIANT column only if it can be parsed.
              CASE
                WHEN CHECK_JSON(t.$1) IS NULL
                THEN t.$1
                ELSE NULL
              END,
              t.$1,
            FROM @" ++ stage_name ++ " t)
          ON_ERROR=CONTINUE
          FILE_FORMAT=(FORMAT_TYPE='" ++ file_format_type ++ "');
        ")%string.

Definition pipe_refresh (pipe_name : string) : string :=
  ("
        ALTER PIPE " ++ pipe_name ++ " REFRESH
        ")%string.

Definition copy_select (table date : string) : string :=
  ("
        SELECT 1 FROM " ++ table ++ "
        WHERE date='" ++ date ++ "'
        ")%string.

Definition copy_create_table (table : string) : string :=
  ("
        CREATE TABLE IF NOT EXISTS " ++ table ++ " (
            id number autoincrement start 1 increment 1,
            load_time timestamp_ltz default current_timestamp(),
            origin_file_name varchar(16777216),
            origin_file_line number(38,0),
            origin_date timestamp_ltz,
            origin_str varchar(16777216),
            properties VARIANT,
        );
        ")%string.

Definition copy_delete (table date : string) : string :=
  ("
            DELETE FROM " ++ table ++ "
            WHERE origin_date='" ++ date ++ "'
            ")%string.

Definition copy_create_stage (stage_name stage_url storage_integration file_format_type : string) : string :=
  ("
        CREATE OR REPLACE STAGE " ++ stage_name ++ "
            URL = '" ++ stage_url ++ "'
            STORAGE_INTEGRATION = " ++ storage_integration ++ "
            FILE_FORMAT = (TYPE = " ++ file_format_type ++ ");
        ")%string.

Definition copy_copy_into (table stage_name file_format_type pattern force : string) : string :=
  ("
        COPY INTO " ++ table ++ " (origin_file_name, origin_file_line, origin_str, properties)
        FROM (
        SELECT
          metadata$filename,
          metadata$file_row_number,
          -- Insert JSON into the VARIANT column only if it can be parsed.
          CASE
            WHEN CHECK_JSON(t.$1) IS NULL
            THEN t.$1
            ELSE NULL
          END,
          t.$1,
        FROM @" ++ stage_name ++ " t)
        ON_ERROR=CONTINUE
        FILE_FORMAT=(FORMAT_TYPE='" ++ file_format_type ++ "')
        PATTERN='" ++ pattern ++ "'
        FORCE=" ++ force ++ "
        ")%string.

Definition ga_select (table date ga_view_id : string) : string :=
  ("
        SELECT 1 FROM " ++ table ++ "
        WHERE session:date='" ++ date ++ "'
            AND ga_view_id='" ++ ga_view_id ++ "'
        ")%string.

Definition ga_create_table (table : string) : string :=
  ("
        CREATE TABLE IF NOT EXISTS " ++ table ++ " (
            id number autoincrement start 1 increment 1,
            load_time timestamp_ltz default current_timestamp(),
            ga_view_id string,
            session VARIANT
        );
        ")%string.

Definition ga_delete (table date ga_view_id : string) : string :=
  ("
            DELETE FROM " ++ table ++ "
            WHERE session:date='" ++ date ++ "'
                AND ga_view_id='" ++ ga_view_id ++ "'
            ")%string.

Definition ga_create_stage (stage_name stage_url storage_integration : string) : string :=
  ("
        CREATE OR REPLACE STAGE " ++ stage_name ++ "
            URL = '" ++ stage_url ++ "'
            STORAGE_INTEGRATION = " ++ storage_integration ++ "
            FILE_FORMAT = (TYPE = JSON);
        ")%string.

Definition ga_copy_into (table ga_view_id stage_name pattern force : string) : string :=
  ("
        COPY INTO " ++ table ++ " (ga_view_id, session)
            FROM (
                SELECT
                    '" ++ ga_view_id ++ "',
                    t.$1
                FROM @" ++ stage_name ++ " t
            )
        PATTERN='" ++ pattern ++ "'
        FORCE=" ++ force ++ "
        ")%string.

(** Binding the keyword arguments of a call to the parameters
    [autocommit] and [warehouse] of [create_snowflake_connection]; a
    keyword that names neither is a [TypeError] of the call. *)
Fixpoint bind_keywords (keywords : list (string * json)) (autocommit warehouse : json)
  : Result (json * json) :=
  match keywords with
  | [] => Ok (autocommit, warehouse)
  | (name, v) :: rest =>
      if String.eqb name "autocommit" then bind_keywords rest v warehouse
      else if String.eqb name "warehouse" then bind_keywords rest autocommit v
      else Raise TypeError
  end.

Section Tasks.

Variable key_bytes : string -> string -> error + string.
Variable database : World -> event -> option error.
Variable fetched : World -> option (list json).

(** Attempt an action on the service. *)
Definition act (e : event) : SM unit :=
  fun w =>
    (match database w e with
     | Some err => Raise err
     | None => Ok tt
     end, e :: w).

(** [serialization.load_pem_private_key(...).private_bytes(...)] *)
Definition load_private_key (private_key passphrase : string) : SM string :=
  fun w =>
    (match key_bytes private_key passphrase with
     | inl err => Raise err
     | inr pkb => Ok pkb
     end, w).

(** [snowflake.connector.connect(...)]: the new connection is numbered by
    the connections attempted before it. *)
Definition connect (user account : json) (pkb : string) (autocommit warehouse : json)
  : SM nat :=
  fun w =>
    match act (Connect user account pkb autocommit warehouse) w with
    | (Ok _, w') => (Ok (List.length (filter is_Connect w)), w')
    | (Raise e, w') => (Raise e, w')
    end.

(** [connection.cursor().execute(query)] *)
Definition execute (connection : nat) (query : string) : SM unit :=
  act (Execute connection query).

(** [cursor.fetchone()] *)
Definition fetchone (connection : nat) : SM (option (list json)) :=
  fun w =>
    match act (Fetchone connection) w with
    | (Ok _, w') => (Ok (fetched w), w')
    | (Raise e, w') => (Raise e, w')
    end.

(** [create_snowflake_connection(credentials, role, **keywords)] *)
Definition create_snowflake_connection (credentials : list (string * json))
           (role : string) (keywords : list (string * json)) : SM nat :=
  (parameters <- lift (bind_keywords keywords (JBool false) JNull) ;;
   let autocommit := fst parameters in
   let warehouse := snd parameters in
   let private_key := dict_get credentials "private_key" in
   let private_key_passphrase := dict_get credentials "private_key_passphrase" in
   let user := dict_get credentials "user" in
   let account := dict_get credentials "account" in
   key <- lift (encode private_key) ;;
   password <- lift (encode private_key_passphrase) ;;
   pkb <- load_private_key key password ;;
   connection <- connect user account pkb autocommit warehouse ;;
   execute connection ("USE ROLE " ++ role)%string ;;;
   execute connection "ALTER SESSION SET TIMEZONE = 'UTC'" ;;;
   ret connection)%sf.

(** [try: body / except Exception: rollback(); raise / finally: close()] *)
Definition try_rollback_finally_close (connection : nat) (body : SM unit) : SM unit :=
  fun w =>
    let after_body :=
      match body w with
      | (Ok _, w1) => (Ok tt, w1)
      | (Raise e, w1) =>
          if is_Exception e
          then match act (Rollback connection) w1 with
               | (Ok _, w2) => (Raise e, w2)
               | (Raise e', w2) => (Raise e', w2)
               end
          else (Raise e, w1)
      end in
    match act (Close connection) (snd after_body) with
    | (Ok _, w3) => (fst after_body, w3)
    | (Raise e', w3) => (Raise e', w3)
    end.

(** The body of [load_s3_data_to_snowflake_pipe], before decoration. *)
Definition load_s3_data_to_snowflake_pipe_once
           (sf_credentials : list (string * json))
           (sf_database sf_schema sf_table sf_role : string) (sf_warehouse : json)
           (sf_storage_integration s3_url sf_file_format_type : string) : SM unit :=
  (sf_connection <- create_snowflake_connection sf_credentials sf_role
                      [("warehouse", sf_warehouse)] ;;
   try_rollback_finally_close sf_connection
     (execute sf_connection
        (pipe_create_table (qualified_table_name sf_database sf_schema sf_table)) ;;;
      execute sf_connection
        (pipe_create_stage (qualified_stage_name sf_database sf_schema sf_table)
                           s3_url sf_storage_integration sf_file_format_type) ;;;
      execute sf_connection
        (pipe_create_pipe (qualified_pipe_name sf_database sf_schema sf_table)
                          (qualified_table_name sf_database sf_schema sf_table)
                          (qualified_stage_name sf_database sf_schema sf_table)
                          sf_file_format_type) ;;;
      execute sf_connection
        (pipe_refresh (qualified_pipe_name sf_database sf_schema sf_table)) ;;;
      act (Commit sf_connection)))%sf.

(** [try: execute(query); row = fetchone() / except ProgrammingError as e:
    row = None if "does not exist" in e.msg, else raise] *)
Definition existing_row (connection : nat) (query : string)
  : SM (option (list json)) :=
  fun w =>
    match (execute connection query ;;; fetchone connection)%sf w with
    | (Raise (ProgrammingError msg), w') =>
        if contains "does not exist" msg
        then (Ok None, w')
        else (Raise (ProgrammingError msg), w')
    | other => other
    end.

(** The body of [load_s3_data_to_snowflake_copy], before decoration. *)
Definition load_s3_data_to_snowflake_copy_once
           (sf_credentials : list (string * json))
           (sf_database sf_schema sf_table sf_role : string) (sf_warehouse : json)
           (sf_storage_integration s3_url date pattern sf_file_format_type : string)
           (overwrite : bool) : SM unit :=
  (sf_connection <- create_snowflake_connection sf_credentials sf_role
                      [("warehouse", sf_warehouse)] ;;
   row <- existing_row sf_connection
            (copy_select (qualified_table_name sf_database sf_schema sf_table) date) ;;
   if row_found row && negb overwrite then ret tt
   else
     try_rollback_finally_close sf_connection
       (execute sf_connection
          (copy_create_table (qualified_table_name sf_database sf_schema sf_table)) ;;;
        (if overwrite
         then execute sf_connection
                (copy_delete (qualified_table_name sf_database sf_schema sf_table) date)
         else ret tt) ;;;
        execute sf_connection
          (copy_create_stage (qualified_stage_name sf_database sf_schema sf_table)
                             s3_url sf_storage_integration sf_file_format_type) ;;;
        execute sf_connection
          (copy_copy_into (qualified_table_name sf_database sf_schema sf_table)
                          (qualified_stage_name sf_database sf_schema sf_table)
                          sf_file_format_type pattern (str_of_bool overwrite)) ;;;
        act (Commit sf_connection)))%sf.

(** The body of [load_ga_data_to_snowflake], before decoration. Its call of
    [create_snowflake_connection] passes the keyword [sf_warehouse]. *)
Definition load_ga_data_to_snowflake_once
           (sf_credentials : list (string * json))
           (sf_database sf_schema sf_table sf_role sf_storage_integration
                        bq_dataset gcs_url date : string)
           (sf_warehouse : json) (pattern : string) (overwrite : bool) : SM unit :=
  (sf_connection <- create_snowflake_connection sf_credentials sf_role
                      [("sf_warehouse", sf_warehouse)] ;;
   let gcs_url := py_replace "gs://" "gcs://" gcs_url in
   row <- existing_row sf_connection
            (ga_select (qualified_table_name sf_database sf_schema sf_table)
                       date bq_dataset) ;;
   if row_found row && negb overwrite then ret tt
   else
     try_rollback_finally_close sf_connection
       (execute sf_connection
          (ga_create_table (qualified_table_name sf_database sf_schema sf_table)) ;;;
        (if overwrite
         then execute sf_connection
                (ga_delete (qualified_table_name sf_database sf_schema sf_table)
                           date bq_dataset)
         else ret tt) ;;;
        execute sf_connection
          (ga_create_stage (qualified_stage_name sf_database sf_schema sf_table)
                           gcs_url sf_storage_integration) ;;;
        execute sf_connection
          (ga_copy_into (qualified_table_name sf_database sf_schema sf_table)
                        bq_dataset
                        (qualified_stage_name sf_database sf_schema sf_table)
                        pattern (str_of_bool overwrite)) ;;;
        act (Commit sf_connection)))%sf.

(** The loop of the wrapper that [backoff.on_exception(backoff.expo,
    snowflake.connector.ProgrammingError, max_tries=max_tries)] builds:
    the try that brings [tries] to [max_tries] is the last; before another
    try the wrapper sleeps. Any other exception is not caught. *)
Fixpoint retry_tries {A} (fuel : nat) (max_tries tries : nat) (target : SM A)
         (w : World) : option (Result A * World) :=
  match fuel with
  | O => None
  | S fuel' =>
      match target w with
      | (Ok a, w') => Some (Ok a, w')
      | (Raise (ProgrammingError msg), w') =>
          if Nat.eqb (S tries) max_tries
          then Some (Raise (ProgrammingError msg), w')
          else retry_tries fuel' max_tries (S tries) target (Sleep tries :: w')
      | (Raise e, w') => Some (Raise e, w')
      end
  end.

Definition on_exception_max_tries {A} (max_tries : nat) (target : SM A)
  : World -> option (Result A * World) :=
  retry_tries max_tries max_tries 0 target.

(** The three tasks, as decorated. *)
Definition load_s3_data_to_snowflake_pipe
           sf_credentials sf_database sf_schema sf_table sf_role sf_warehouse
           sf_storage_integration s3_url sf_file_format_type :=
  on_exception_max_tries 3
    (load_s3_data_to_snowflake_pipe_once
       sf_credentials sf_database sf_schema sf_table sf_role sf_warehouse
       sf_storage_integration s3_url sf_file_format_type).

Definition load_s3_data_to_snowflake_copy
           sf_credentials sf_database sf_schema sf_table sf_role sf_warehouse
           sf_storage_integration s3_url date pattern sf_file_format_type overwrite :=
  on_exception_max_tries 3
    (load_s3_data_to_snowflake_copy_once
       sf_credentials sf_database sf_schema sf_table sf_role sf_warehouse
       sf_storage_integration s3_url date pattern sf_file_format_type overwrite).

Definition load_ga_data_to_snowflake
           sf_credentials sf_database sf_schema sf_table sf_role
           sf_storage_integration bq_dataset gcs_url date sf_warehouse pattern
           overwrite :=
  on_exception_max_tries 3
    (load_ga_data_to_snowflake_once
       sf_credentials sf_database sf_schema sf_table sf_role
       sf_storage_integration bq_dataset gcs_url date sf_warehouse pattern overwrite).

End Tasks.

(** ** Observations on a run *)

(** Number of connections attempted, and of waits of the retry loop. *)
Definition connects (w : World) : nat := List.length (filter is_Connect w).
Definition sleeps (w : World) : nat := List.length (filter is_Sleep w).

(** A computation that attempts at most [k] connections and never waits. *)
Definition bounded {A} (k : nat) (m : SM A) : Prop :=
  forall w,
    (connects (snd (m w)) <= connects w + k)%nat /\ sleeps (snd (m w)) = sleeps w.


Definition copy_statements
           (sf_database sf_schema sf_table sf_storage_integration s3_url date
                        pattern sf_file_format_type : string) (overwrite : bool)
  : list string :=
  [copy_create_table (qualified_table_name sf_database sf_schema sf_table)]
    ++ (if overwrite
        then [copy_delete (qualified_table_name sf_database sf_schema sf_table) date]
        else [])
    ++ [copy_create_stage (qualified_stage_name sf_database sf_schema sf_table)
                          s3_url sf_storage_integration sf_file_format_type;
        copy_copy_into (qualified_table_name sf_database sf_schema sf_table)
                       (qualified_stage_name sf_database sf_schema sf_table)
                       sf_file_format_type pattern
                       (if overwrite then "True" else "False")].

(** A computation that only adds to the list of actions. *)
Definition prepends {A} (m : SM A) : Prop :=
  forall w, exists new, snd (m w) = (new ++ w)%list.

(** An action on a connection that is open: neither a connect nor a wait. *)
Definition on_connection (e : event) : Prop :=
  is_Connect e = false /\ is_Sleep e = false.

(** ** Scenarios *)

Definition any_key (private_key passphrase : string) : error + string :=
  inr private_key.
Definition willing (w : World) (e : event) : option error := None.
Definition one_row (w : World) : option (list json) := Some [JNum 1].
Definition no_row (w : World) : option (list json) := None.

(** The service refuses every statement that is executed. *)
Definition refusing (msg : string) (w : World) (e : event) : option error :=
  match e with
  | Execute _ _ => Some (ProgrammingError msg)
  | _ => None
  end.



(** The service does not know the table that the check selects from. *)
Definition missing_table (w : World) (e : event) : option error :=
  match e with
  | Execute _ query =>
      if contains "SELECT 1" query
      then Some (ProgrammingError "Object 'DB.SCH.TBL' does not exist or not authorized.")
      else None
  | _ => None
  end.

Definition credentials : list (string * json) :=
  [("private_key", JStr "PEM"); ("private_key_passphrase", JStr "secret");
   ("user", JStr "loader"); ("account", JStr "acme")].

End Snowflake.

Section Client.

(** The servers: the reply to a request, given the requests sent before. *)
Variable server : list Request -> Request -> Reply.
(** The random source: the k-th draw, in parts per million. *)
Variable rand : nat -> Z.
(** Python's rendering of lists and dicts. *)
Variable repr_container : json -> string.

(** Hand a request to the transport. *)
Definition send (req : Request) : M Response :=
  fun s =>
    let w := snd s in
    let reply := server (sent w) req in
    let w' := {| clock := clock w + elapsed reply;
                 sent := req :: sent w;
                 draws := draws w |} in
    match outcome reply with
    | inl e => (Raise e, (fst s, w'))
    | inr r => (Ok r, (fst s, w'))
    end.

(** [SuppliedAuth.__call__]: the header value *)
Definition SuppliedAuth_call (a : SuppliedAuth) : string :=
  (py_str repr_container (auth_token_type a) ++ " "
     ++ py_str repr_container (token a))%string.

(** [requests.post(url, data=data)] *)
Definition requests_post (url : json) (form : list (string * json)) : M Response :=
  send {| method := POST; target := url; params := None; data := form;
          authorization := None |}.

(** [session.get(url, params=params)] on a session whose [auth] is [a] *)
Definition session_get (a : option SuppliedAuth) (url : json)
           (query : option (list (string * string))) : M Response :=
  send {| method := GET; target := url; params := query; data := [];
          authorization := option_map SuppliedAuth_call a |}.

(** [self._expires_at is None or now >= self._expires_at] *)
Definition token_missing_or_expired (expires_at : option Z) (now : Z) : bool :=
  match expires_at with
  | None => true
  | Some t => t <=? now
  end.

(** [EdxApiClient.ensure_oauth_access_token] *)
Definition ensure_oauth_access_token : M unit :=
  now <- utcnow ;;
  self <- get_self ;;
  if token_missing_or_expired (_expires_at self) now then
    response <- requests_post (auth_url self)
                  [("grant_type", JStr "client_credentials");
                   ("client_id", client_id self);
                   ("client_secret", client_secret self);
                   ("token_type", token_type self)] ;;
    data <- lift (response_json response) ;;
    access_token <- lift (py_getitem data "access_token") ;;
    ttype <- lift (py_get data "token_type" (token_type self)) ;;
    put_self {| _expires_at := _expires_at self;
                session_auth := Some (mkSuppliedAuth access_token ttype);
                client_id := client_id self;
                client_secret := client_secret self;
                auth_url := auth_url self;
                token_type := token_type self |} ;;;
    expires_in <- lift (py_getitem data "expires_in") ;;
    delta <- lift (timedelta_seconds expires_in) ;;
    expires_at <- lift (datetime_add now delta) ;;
    put_self {| _expires_at := Some expires_at;
                session_auth := Some (mkSuppliedAuth access_token ttype);
                client_id := client_id self;
                client_secret := client_secret self;
                auth_url := auth_url self;
                token_type := token_type self |}
  else ret tt.

(** [self.authenticated_session.get(url, params=params)] *)
Definition authenticated_session_get (url : json)
           (query : option (list (string * string))) : M Response :=
  ensure_oauth_access_token ;;;
  self <- get_self ;;
  session_get (session_auth self) url query.

(** *** The [backoff] decorator *)

(** [backoff.full_jitter(value)], that is [random.uniform(0, value)] *)
Definition full_jitter (value : Z) : M Z :=
  fun s =>
    let w := snd s in
    (Ok (value * (rand (draws w) mod (ppm + 1)) / ppm),
     (fst s, {| clock := clock w; sent := sent w; draws := S (draws w) |})).

(** [backoff._common._next_wait]: the n-th value of [expo], jittered, and
    never longer than what is left of [max_time] *)
Definition next_wait (n : nat) (elapsed_time max_time : Z) : M Z :=
  seconds <- full_jitter (expo n) ;;
  ret (Z.min seconds (max_time - elapsed_time)).

Inductive Turn (A : Type) : Type :=
| Return (r : Result A)
| Again.
Arguments Return {A} r.
Arguments Again {A}.

(** One turn of the [while True] loop in the wrapper that
    [backoff.on_exception] builds: [elapsed] is read before the call of
    the target; an exception outside [RequestException] is not caught. *)
Definition retry_turn {A} (max_time : Z) (giveup : exn -> bool) (target : M A)
           (start : Z) (n : nat) (s : State) : Turn A * State :=
  let elapsed_time := clock (snd s) - start in
  match target s with
  | (Ok a, s') => (Return (Ok a), s')
  | (Raise e, s') =>
      if is_RequestException e then
        if giveup e || (max_time <=? elapsed_time)
        then (Return (Raise e), s')
        else (Again, snd ((seconds <- next_wait n elapsed_time max_time ;;
                           sleep seconds) s'))
      else (Return (Raise e), s')
  end.

Fixpoint retry_loop {A} (fuel : nat) (max_time : Z) (giveup : exn -> bool)
         (target : M A) (start : Z) (n : nat) (s : State)
  : option (Result A * State) :=
  match fuel with
  | O => None
  | S fuel' =>
      match retry_turn max_time giveup target start n s with
      | (Return r, s') => Some (r, s')
      | (Again, s') => retry_loop fuel' max_time giveup target start (S n) s'
      end
  end.

(** [backoff.on_exception(backoff.expo, RequestException,
    max_time=max_time, giveup=giveup)(target)]: [start] is the time of
    the call. *)
Definition on_exception {A} (max_time : Z) (giveup : exn -> bool)
           (target : M A) (fuel : nat) (s : State) : option (Result A * State) :=
  retry_loop fuel max_time giveup target (clock (snd s)) 0 s.

(** *** [EdxApiClient.paginated_get] *)

(** [pagination_key] is a [str], a callable, or anything else ([None]). *)
Inductive PaginationKey : Type :=
| KeyStr (name : string)
| KeyCallable (f : json -> Result json)
| KeyOther.

Inductive Generator : Type :=
| Created
| Suspended (next_url : json)
| Finished.

Inductive Next : Type :=
| Yield (response : Response)
| StopIteration
| Raised (e : exn).

Section PaginatedGet.

Variable url : json.
Variable query : option (list (string * string)).
Variable timeout_seconds : Z.
Variable retry_on : list Z.
Variable pagination_key : PaginationKey.

Definition get_next_url_from_response (response : Response) : Result json :=
  match response_json response with
  | Raise e => Raise e
  | Ok response_obj =>
      match pagination_key with
      | KeyStr name => py_get response_obj name JNull
      | KeyCallable f => f response_obj
      | KeyOther => Ok JNull
      end
  end.

Definition should_giveup (error : exn) : bool :=
  match error_response error with
  | None => true
  | Some error_response => negb (status_in (status_code error_response) retry_on)
  end.

(** The body of [get_resource_with_retry], before decoration. *)
Definition get_resource (next_url : json) : M (Response * json) :=
  raw_response <- (if is_None next_url
                   then authenticated_session_get url query
                   else authenticated_session_get next_url None) ;;
  lift (raise_for_status raw_response) ;;;
  next_url' <- lift (get_next_url_from_response raw_response) ;;
  ret (raw_response, next_url').

Definition get_resource_with_retry (fuel : nat) (next_url : json)
  : State -> option (Result (Response * json) * State) :=
  on_exception timeout_seconds should_giveup (get_resource next_url) fuel.

(** Run the generator up to its next [yield]. *)
Definition fetch_and_yield (fuel : nat) (next_url : json) (s : State)
  : option (Next * Generator * State) :=
  match get_resource_with_retry fuel next_url s with
  | None => None
  | Some (Ok (response, next_url'), s') => Some (Yield response, Suspended next_url', s')
  | Some (Raise e, s') => Some (Raised e, Finished, s')
  end.

(** [next(g)] on the generator that [paginated_get] returns. *)
Definition paginated_get_next (fuel : nat) (g : Generator) (s : State)
  : option (Next * Generator * State) :=
  match g with
  | Created => fetch_and_yield fuel JNull s
  | Suspended next_url =>
      if is_None next_url then Some (StopIteration, Finished, s)
      else fetch_and_yield fuel next_url s
  | Finished => Some (StopIteration, Finished, s)
  end.

(** [for response in paginated_get(...)]: the responses yielded, in
    order, and the exception that ended the iteration, if one did. *)
Fixpoint consume (pages fuel : nat) (g : Generator) (s : State)
  : option (list Response * option exn * State) :=
  match pages with
  | O => None
  | S pages' =>
      match paginated_get_next fuel g s with
      | None => None
      | Some (StopIteration, _, s') => Some ([], None, s')
      | Some (Raised e, _, s') => Some ([], Some e, s')
      | Some (Yield response, g', s') =>
          match consume pages' fuel g' s' with
          | None => None
          | Some (rs, e, s'') => Some (response :: rs, e, s'')
          end
      end
  end.

Definition paginated_get (pages fuel : nat) (s : State) :=
  consume pages fuel Created s.

End PaginatedGet.

(** [EdxApiClient.get]: [next(self.paginated_get(..., pagination_key=None))] *)
Definition get (url : json) (query : option (list (string * string)))
           (timeout_seconds : Z) (retry_on : list Z) (fuel : nat) (s : State)
  : option (Result Response * State) :=
  match paginated_get_next url query timeout_seconds retry_on KeyOther fuel Created s with
  | None => None
  | Some (Yield response, _, s') => Some (Ok response, s')
  | Some (StopIteration, _, s') => Some (Raise (OtherException "StopIteration"), s')
  | Some (Raised e, _, s') => Some (Raise e, s')
  end.

(** ** Observations on a run *)

Definition is_GET (q : Request) : bool :=
  match method q with GET => true | POST => false end.

(** Number of GET requests issued so far. *)
Definition GET_count (s : State) : nat := List.length (filter is_GET (sent (snd s))).

(** From [s] to [s'] requests were only added, and each added one has [P]. *)
Definition adds (P : Request -> Prop) (s s' : State) : Prop :=
  exists new, sent (snd s') = (new ++ sent (snd s))%list /\ Forall P new.

(** The request is not a GET, or it is a GET with this Authorization header. *)
Definition carries (header : string) (q : Request) : Prop :=
  method q = GET -> authorization q = Some header.

(** The request is not a GET, or it is a GET for this URL and query. *)
Definition aims_at (url : json) (query : option (list (string * string)))
           (q : Request) : Prop :=
  method q = GET -> target q = url /\ params q = query.

(** The credential of scenario A. *)
Definition jwt_abc : SuppliedAuth := mkSuppliedAuth (JStr "abc") (JStr "jwt").

(** The client prefers the token type jwt, and the credential it holds, once
    it holds one, is [jwt_abc]. *)
Definition holds_jwt_abc (self : EdxApiClient) : Prop :=
  token_type self = JStr "jwt"
  /\ (_expires_at self = None \/ session_auth self = Some jwt_abc).

(** The request is not a GET, or it is a GET with some Authorization header. *)
Definition authenticated (q : Request) : Prop :=
  method q = GET -> authorization q <> None.

(** A client that has an expiry also has a credential. *)
Definition expiry_has_credential (self : EdxApiClient) : Prop :=
  _expires_at self <> None -> session_auth self <> None.

(** The response is one a page fetch can return: no error status, a JSON
    body. *)
Definition acceptable (r : Response) : Prop :=
  ~ 400 <= status_code r < 600 /\ body r <> None.

(** [isinstance(v, dict)] *)
Definition is_dict (v : json) : bool :=
  match v with JObj _ => true | _ => false end.

(** [expires_in] seconds make a [timedelta], and [now] plus it is a
    [datetime]. *)
Definition expiry_in_range (now expires_in : Z) : Prop :=
  -999999999 <= expires_in / 86400 <= 999999999
  /\ 0 <= now + expires_in * second <= datetime_max.

(** The client-credentials request that [ensure_oauth_access_token] posts. *)
Definition token_request (self : EdxApiClient) : Request :=
  {| method := POST;
     target := auth_url self;
     params := None;
     data := [("grant_type", JStr "client_credentials");
              ("client_id", client_id self);
              ("client_secret", client_secret self);
              ("token_type", token_type self)];
     authorization := None |}.

(** [pages_until_absent ... n next_url s rs s']: starting in [s], [n] page
    fetches in a row succeed, the first [n - 1] with a locator that is
    present and the last with an absent one; [rs] are the responses and
    [s'] the state after the last fetch. *)
Inductive pages_until_absent (url : json) (query : option (list (string * string)))
          (timeout_seconds : Z) (retry_on : list Z) (pagination_key : PaginationKey)
          (fuel : nat)
  : nat -> json -> State -> list Response -> State -> Prop :=
| last_page next_url s response s' :
    get_resource_with_retry url query timeout_seconds retry_on pagination_key
                            fuel next_url s
    = Some (Ok (response, JNull), s') ->
    pages_until_absent url query timeout_seconds retry_on pagination_key fuel
                       1 next_url s [response] s'
| more_pages n next_url s response locator s1 rs s' :
    get_resource_with_retry url query timeout_seconds retry_on pagination_key
                            fuel next_url s
    = Some (Ok (response, locator), s1) ->
    locator <> JNull ->
    pages_until_absent url query timeout_seconds retry_on pagination_key fuel
                       n locator s1 rs s' ->
    pages_until_absent url query timeout_seconds retry_on pagination_key fuel
                       (S n) next_url s (response :: rs) s'.

(** ** Scenarios: concrete servers and clients *)

Definition no_repr (v : json) : string := "".
Definition half (k : nat) : Z := 500000.

Definition token_body : json :=
  JObj [("access_token", JStr "abc"); ("expires_in", JNum 3600)].

(** The token endpoint of scenario A; it answers in 100 ms. *)
Definition token_reply : Reply :=
  {| outcome := inr (mkResponse 200 (Some token_body)); elapsed := 100000 |}.

Definition page (code : Z) (content : json) : Reply :=
  {| outcome := inr (mkResponse code (Some content)); elapsed := second |}.

Definition with_token_endpoint (resource : list Request -> Request -> Reply)
           (history : list Request) (q : Request) : Reply :=
  match method q with
  | POST => token_reply
  | GET => resource history q
  end.

Definition has_next : json :=
  JObj [("results", JArr [JNum 1]); ("next", JStr "https://x/page2")].
Definition last_results : json :=
  JObj [("results", JArr [JNum 2]); ("next", JNull)].

(** Every GET is answered with the status [code]. *)
Definition always (code : Z) : list Request -> Request -> Reply :=
  with_token_endpoint (fun _ _ => page code has_next).


(** The token endpoint gives tokens that last 10^12 seconds. *)
Definition eternal_body : json :=
  JObj [("access_token", JStr "abc"); ("expires_in", JNum 1000000000000)].
Definition eternal (history : list Request) (q : Request) : Reply :=
  match method q with
  | POST => {| outcome := inr (mkResponse 200 (Some eternal_body)); elapsed := 100000 |}
  | GET => page 200 has_next
  end.

(** Every GET fails in the transport: no response comes back. *)
Definition unreachable : list Request -> Request -> Reply :=
  with_token_endpoint
    (fun _ _ => {| outcome := inl (RequestException ConnectionError None);
                   elapsed := second |}).

(** What [requests] does with a URL: only one with a scheme is sent. *)
Definition routed (routes : list (string * Reply)) (q : Request) : Reply :=
  match target q with
  | JStr u =>
      match assoc u routes with
      | Some reply => reply
      | None => {| outcome := inl (RequestException MissingSchema None); elapsed := 0 |}
      end
  | _ => {| outcome := inl (RequestException MissingSchema None); elapsed := 0 |}
  end.

(** Scenario C: two pages linked by the field [next]. *)
Definition two_pages : list Request -> Request -> Reply :=
  with_token_endpoint
    (fun _ => routed [("https://x/page1", page 200 has_next);
                      ("https://x/page2", page 200 last_results)]).

(** A page whose cursor is the empty string. *)
Definition empty_cursor : json := JObj [("results", JArr [JNum 1]); ("cursor", JStr "")].
Definition one_page_empty_cursor : list Request -> Request -> Reply :=
  with_token_endpoint (fun _ => routed [("https://x/page1", page 200 empty_cursor)]).
Definition cursor_of (obj : json) : Result json := py_getitem obj "cursor".

(** The first [failures] GETs are answered 503, the later ones 200. *)
Definition flaky (failures : nat) : list Request -> Request -> Reply :=
  with_token_endpoint
    (fun history _ =>
       if Nat.ltb (List.length (filter is_GET history)) failures
       then page 503 JNull
       else page 200 has_next).

(** Two pages; each is answered 503 twice before it is answered 200. *)
Definition slow_two_pages : list Request -> Request -> Reply :=
  with_token_endpoint
    (fun history q =>
       let k := List.length (filter is_GET history) in
       if Nat.ltb k 2 then page 503 JNull
       else if Nat.eqb k 2 then page 200 has_next
       else if Nat.ltb k 5 then page 503 JNull
       else page 200 last_results).

(** Every GET is answered 200 with a body that is not JSON. *)
Definition garbled : list Request -> Request -> Reply :=
  with_token_endpoint
    (fun _ _ => {| outcome := inr (mkResponse 200 None); elapsed := second |}).

Definition page1 : json := JStr "https://x/page1".

Definition fresh_world : World := {| clock := 0; sent := []; draws := 0 |}.
Definition fresh_client : EdxApiClient :=
  new_client (JStr "https://auth/token") (JStr "id") (JStr "secret") JNull.
Definition fresh : State := (fresh_client, fresh_world).

(** A client whose cached credential expires at 3600 s, and the world at
    that very time. *)
Definition cached_client : EdxApiClient :=
  {| _expires_at := Some (3600 * second);
     session_auth := Some jwt_abc;
     client_id := JStr "id";
     client_secret := JStr "secret";
     auth_url := JStr "https://auth/token";
     token_type := JStr "jwt" |}.
Definition world_at_expiry : World :=
  {| clock := 3600 * second; sent := []; draws := 0 |}.

(** Every GET is answered 200 with a JSON list. *)
Definition listing : list Request -> Request -> Reply :=
  with_token_endpoint (fun _ _ => page 200 (JArr [JNum 1; JNum 2])).

(** [lambda r: r['pagination']['next']] *)
Definition pagination_next (obj : json) : Result json :=
  match py_getitem obj "pagination" with
  | Ok pagination => py_getitem pagination "next"
  | Raise e => Raise e
  end.

(** A token endpoint that answers with an error object. *)
Definition token_refused (history : list Request) (q : Request) : Reply :=
  match method q with
  | POST => {| outcome := inr (mkResponse 401 (Some (JObj [("error", JStr "invalid_client")])));
               elapsed := 100000 |}
  | GET => page 200 has_next
  end.

(** A token endpoint that names the token type. *)
Definition bearer_body : json :=
  JObj [("access_token", JStr "abc"); ("token_type", JStr "Bearer");
        ("expires_in", JNum 3600)].
Definition bearer_endpoint (history : list Request) (q : Request) : Reply :=
  match method q with
  | POST => {| outcome := inr (mkResponse 200 (Some bearer_body)); elapsed := 100000 |}
  | GET => page 200 has_next
  end.

(** * Properties *)

(** ** The monad and the transport *)

Lemma bind_Ok {A B} (m : M A) (k : A -> M B) s a s' :
  m s = (Ok a, s') -> bind m k s = k a s'.
Proof. intros H. unfold bind. rewrite H. reflexivity. Qed.

Lemma bind_Raise {A B} (m : M A) (k : A -> M B) s e s' :
  m s = (Raise e, s') -> bind m k s = (Raise e, s').
Proof. intros H. unfold bind. rewrite H. reflexivity. Qed.

Lemma adds_refl P s : adds P s s.
Proof. exists []. split; [reflexivity | constructor]. Qed.

Lemma adds_trans P s1 s2 s3 : adds P s1 s2 -> adds P s2 s3 -> adds P s1 s3.
Proof.
  intros [n1 [E1 F1]] [n2 [E2 F2]].
  exists (n2 ++ n1)%list. split.
  - rewrite E2, E1. apply app_assoc.
  - apply Forall_app. split; assumption.
Qed.

Lemma adds_weaken (P Q : Request -> Prop) s s' :
  (forall q, P q -> Q q) -> adds P s s' -> adds Q s s'.
Proof.
  intros PQ [new [E F]]. exists new. split; [exact E |].
  eapply Forall_impl; [exact PQ | exact F].
Qed.

Lemma send_state req s :
  snd (send req s)
  = (fst s, {| clock := clock (snd s) + elapsed (server (sent (snd s)) req);
               sent := req :: sent (snd s);
               draws := draws (snd s) |}).
Proof. unfold send. destruct (outcome _); reflexivity. Qed.

Lemma send_result req s :
  fst (send req s)
  = match outcome (server (sent (snd s)) req) with
    | inl e => Raise e
    | inr r => Ok r
    end.
Proof. unfold send. destruct (outcome _); reflexivity. Qed.

Lemma send_adds (P : Request -> Prop) req s : P req -> adds P s (snd (send req s)).
Proof.
  intros HP. exists [req]. rewrite send_state. simpl.
  split; [reflexivity | repeat constructor; exact HP].
Qed.

(** ** The token *)

Lemma ensure_fresh self w :
  token_missing_or_expired (_expires_at self) (clock w) = false ->
  ensure_oauth_access_token (self, w) = (Ok tt, (self, w)).
Proof.
  intros H. unfold ensure_oauth_access_token, bind, utcnow, get_self. simpl.
  rewrite H. reflexivity.
Qed.

(** What a refresh does, step by step. *)
Lemma ensure_stale self w :
  token_missing_or_expired (_expires_at self) (clock w) = true ->
  ensure_oauth_access_token (self, w)
  = (response <- send (token_request self) ;;
     data <- lift (response_json response) ;;
     access_token <- lift (py_getitem data "access_token") ;;
     ttype <- lift (py_get data "token_type" (token_type self)) ;;
     put_self {| _expires_at := _expires_at self;
                 session_auth := Some (mkSuppliedAuth access_token ttype);
                 client_id := client_id self;
                 client_secret := client_secret self;
                 auth_url := auth_url self;
                 token_type := token_type self |} ;;;
     expires_in <- lift (py_getitem data "expires_in") ;;
     delta <- lift (timedelta_seconds expires_in) ;;
     expires_at <- lift (datetime_add (clock w) delta) ;;
     put_self {| _expires_at := Some expires_at;
                 session_auth := Some (mkSuppliedAuth access_token ttype);
                 client_id := client_id self;
                 client_secret := client_secret self;
                 auth_url := auth_url self;
                 token_type := token_type self |}) (self, w).
Proof.
  intros H. unfold ensure_oauth_access_token at 1.
  unfold bind at 1, utcnow. unfold bind at 1, get_self. cbn [fst snd].
  rewrite H. reflexivity.
Qed.

Ltac step_cases :=
  repeat match goal with
         | |- context [match ?x with _ => _ end] => destruct x eqn:?; cbn [fst snd]
         end.

(** A refresh sends the client-credentials request and nothing else,
    whatever the token endpoint answers. *)
Lemma ensure_stale_world self w :
  token_missing_or_expired (_expires_at self) (clock w) = true ->
  snd (snd (ensure_oauth_access_token (self, w)))
  = {| clock := clock w + elapsed (server (sent w) (token_request self));
       sent := token_request self :: sent w;
       draws := draws w |}.
Proof.
  intros H. rewrite (ensure_stale _ _ H).
  unfold bind, send, lift, put_self. cbn [fst snd].
  destruct (outcome (server (sent w) (token_request self))); [reflexivity |].
  step_cases; reflexivity.
Qed.

Lemma ensure_stale_Ok self w response content access_token expires_in delta
      expires_at :
  token_missing_or_expired (_expires_at self) (clock w) = true ->
  outcome (server (sent w) (token_request self)) = inr response ->
  body response = Some content ->
  py_getitem content "access_token" = Ok access_token ->
  py_getitem content "expires_in" = Ok expires_in ->
  timedelta_seconds expires_in = Ok delta ->
  datetime_add (clock w) delta = Ok expires_at ->
  exists ttype,
    py_get content "token_type" (token_type self) = Ok ttype /\
    ensure_oauth_access_token (self, w)
    = (Ok tt,
       ({| _expires_at := Some expires_at;
           session_auth := Some (mkSuppliedAuth access_token ttype);
           client_id := client_id self;
           client_secret := client_secret self;
           auth_url := auth_url self;
           token_type := token_type self |},
        {| clock := clock w + elapsed (server (sent w) (token_request self));
           sent := token_request self :: sent w;
           draws := draws w |})).
Proof.
  intros H Hr Hb Ha He Hd Hsum.
  assert (Hobj : exists ttype, py_get content "token_type" (token_type self) = Ok ttype).
  { destruct content; try discriminate Ha. simpl.
    destruct (assoc "token_type" fields); eauto. }
  destruct Hobj as [ttype Ht]. exists ttype. split; [exact Ht |].
  rewrite (ensure_stale _ _ H).
  unfold bind, send, lift, put_self, response_json. cbn [fst snd].
  rewrite Hr, Hb, Ha, Ht, He, Hd, Hsum. reflexivity.
Qed.

(** An expiry in range is computed without overflow. *)
Lemma expiry_in_range_Ok now expires_in :
  expiry_in_range now expires_in ->
  timedelta_seconds (JNum expires_in) = Ok (expires_in * second)
  /\ datetime_add now (expires_in * second) = Ok (now + expires_in * second).
Proof.
  intros [[Hd1 Hd2] [Hs1 Hs2]]. unfold timedelta_seconds, datetime_add.
  apply Z.leb_le in Hd1. apply Z.leb_le in Hd2.
  apply Z.leb_le in Hs1. apply Z.leb_le in Hs2.
  rewrite Hd1, Hd2, Hs1, Hs2, orb_true_r. split; reflexivity.
Qed.

Lemma expiry_in_range_check now expires_in :
  (-999999999 <=? expires_in / 86400) && (expires_in / 86400 <=? 999999999)
  && (0 <=? now + expires_in * second)
  && (now + expires_in * second <=? datetime_max) = true ->
  expiry_in_range now expires_in.
Proof.
  intros H. repeat (apply andb_true_iff in H; destruct H as [H ?]).
  unfold expiry_in_range. rewrite <- !Z.leb_le. auto.
Qed.

(** A refresh whose expiry cannot be computed raises after the session
    credential is replaced; the expiry stays as it was. *)
Lemma ensure_stale_expiry_error self w response content access_token expires_in e :
  token_missing_or_expired (_expires_at self) (clock w) = true ->
  outcome (server (sent w) (token_request self)) = inr response ->
  body response = Some content ->
  py_getitem content "access_token" = Ok access_token ->
  py_getitem content "expires_in" = Ok expires_in ->
  timedelta_seconds expires_in = Raise e
  \/ (exists delta, timedelta_seconds expires_in = Ok delta
                    /\ datetime_add (clock w) delta = Raise e) ->
  exists ttype,
    py_get content "token_type" (token_type self) = Ok ttype /\
    ensure_oauth_access_token (self, w)
    = (Raise e,
       ({| _expires_at := _expires_at self;
           session_auth := Some (mkSuppliedAuth access_token ttype);
           client_id := client_id self;
           client_secret := client_secret self;
           auth_url := auth_url self;
           token_type := token_type self |},
        {| clock := clock w + elapsed (server (sent w) (token_request self));
           sent := token_request self :: sent w;
           draws := draws w |})).
Proof.
  intros H Hr Hb Ha He Herr.
  assert (Hobj : exists ttype, py_get content "token_type" (token_type self) = Ok ttype).
  { destruct content; try discriminate Ha. simpl.
    destruct (assoc "token_type" fields); eauto. }
  destruct Hobj as [ttype Ht]. exists ttype. split; [exact Ht |].
  rewrite (ensure_stale _ _ H).
  unfold bind, send, lift, put_self, response_json. cbn [fst snd].
  rewrite Hr, Hb, Ha, Ht, He.
  destruct Herr as [Hd | [delta [Hd Hsum]]].
  - rewrite Hd. reflexivity.
  - rewrite Hd, Hsum. reflexivity.
Qed.

Lemma ensure_self_unchanged_world s :
  adds (fun q => method q = POST) s (snd (ensure_oauth_access_token s)).
Proof.
  destruct s as [self w].
  destruct (token_missing_or_expired (_expires_at self) (clock w)) eqn:H.
  - exists [token_request self]. rewrite (ensure_stale_world _ _ H). simpl.
    split; [reflexivity | repeat constructor].
  - rewrite (ensure_fresh _ _ H). apply adds_refl.
Qed.

Lemma token_missing_or_expired_spec expires_at now :
  token_missing_or_expired expires_at now = true
  <-> (expires_at = None \/ exists t, expires_at = Some t /\ t <= now).
Proof.
  unfold token_missing_or_expired. destruct expires_at as [t |].
  - rewrite Z.leb_le. split.
    + intros H. right. exists t. split; [reflexivity | exact H].
    + intros [H | [t' [E H]]]; [discriminate | congruence].
  - split; [intros _; left; reflexivity | reflexivity].
Qed.

(** C4. [ensure_oauth_access_token] refreshes exactly when no credential is
    cached or the time is at or past the cached expiry. In that case it
    posts the client-credentials request, and when the endpoint answers
    with [access_token] and an [expires_in] for which [now + expires_in]
    is a datetime, the cached credential is replaced and expires at
    [now + expires_in]. With an expiry strictly in the future it sends
    nothing and leaves client and world as they were. *)
Theorem ensure_oauth_access_token_refresh_iff_missing_or_expired
        (self : EdxApiClient) (w : World) :
  ((_expires_at self = None \/ exists t, _expires_at self = Some t /\ t <= clock w) ->
   sent (snd (snd (ensure_oauth_access_token (self, w))))
   = token_request self :: sent w
   /\ forall response content access_token expires_in,
       outcome (server (sent w) (token_request self)) = inr response ->
       body response = Some content ->
       py_getitem content "access_token" = Ok access_token ->
       py_getitem content "expires_in" = Ok (JNum expires_in) ->
       expiry_in_range (clock w) expires_in ->
       exists ttype,
         py_get content "token_type" (token_type self) = Ok ttype /\
         fst (ensure_oauth_access_token (self, w)) = Ok tt /\
         fst (snd (ensure_oauth_access_token (self, w)))
         = {| _expires_at := Some (clock w + expires_in * second);
              session_auth := Some (mkSuppliedAuth access_token ttype);
              client_id := client_id self;
              client_secret := client_secret self;
              auth_url := auth_url self;
              token_type := token_type self |})
  /\
  (forall t, _expires_at self = Some t -> clock w < t ->
             ensure_oauth_access_token (self, w) = (Ok tt, (self, w))).
Proof.
  split.
  - intros H. apply token_missing_or_expired_spec in H. split.
    + rewrite (ensure_stale_world _ _ H). reflexivity.
    + intros response content access_token expires_in Hr Hb Ha He Hrange.
      destruct (expiry_in_range_Ok _ _ Hrange) as [Hdelta Hsum].
      destruct (ensure_stale_Ok self w response content access_token
                                (JNum expires_in) (expires_in * second)
                                (clock w + expires_in * second)
                                H Hr Hb Ha He Hdelta Hsum) as [ttype [Ht E]].
      exists ttype. rewrite E. repeat split. exact Ht.
  - intros t E Hlt. apply ensure_fresh. rewrite E. simpl.
    apply Z.leb_gt. exact Hlt.
Qed.

(** ** The retry loop *)



(** The state in which the loop starts its next turn. *)
Lemma backoff_state n elapsed_time max_time s :
  snd ((seconds <- next_wait n elapsed_time max_time ;; sleep seconds) s)
  = (fst s,
     {| clock := clock (snd s)
                 + Z.min (expo n * (rand (draws (snd s)) mod (ppm + 1)) / ppm)
                         (max_time - elapsed_time);
        sent := sent (snd s);
        draws := S (draws (snd s)) |}).
Proof. reflexivity. Qed.

Section Retry.

Context {A : Type}.
Variable max_time : Z.
Variable giveup : exn -> bool.
Variable target : M A.

Lemma retry_turn_Ok start n s a s' :
  target s = (Ok a, s') ->
  retry_turn max_time giveup target start n s = (Return (Ok a), s').
Proof. intros H. unfold retry_turn. rewrite H. reflexivity. Qed.

Lemma retry_turn_giveup start n s e s' :
  target s = (Raise e, s') ->
  is_RequestException e = false \/ giveup e = true ->
  retry_turn max_time giveup target start n s = (Return (Raise e), s').
Proof.
  intros H G. unfold retry_turn. rewrite H.
  destruct (is_RequestException e); [| reflexivity].
  destruct G as [G | G]; [discriminate |]. rewrite G. reflexivity.
Qed.

Lemma retry_turn_deadline start n s e s' :
  target s = (Raise e, s') ->
  max_time <= clock (snd s) - start ->
  retry_turn max_time giveup target start n s = (Return (Raise e), s').
Proof.
  intros H G. unfold retry_turn. rewrite H.
  destruct (is_RequestException e); [| reflexivity].
  apply Z.leb_le in G. rewrite G, orb_true_r. reflexivity.
Qed.

Lemma retry_turn_Again start n s e s' :
  target s = (Raise e, s') ->
  is_RequestException e = true -> giveup e = false ->
  clock (snd s) - start < max_time ->
  retry_turn max_time giveup target start n s
  = (Again,
     snd ((seconds <- next_wait n (clock (snd s) - start) max_time ;;
           sleep seconds) s')).
Proof.
  intros H R G D. unfold retry_turn. rewrite H, R, G.
  apply Z.leb_gt in D. rewrite D. reflexivity.
Qed.

(** Why a turn returned what it returned. *)
Lemma retry_turn_Return start n s r s' :
  retry_turn max_time giveup target start n s = (Return r, s') ->
  target s = (r, s')
  /\ match r with
     | Ok _ => True
     | Raise e => is_RequestException e = false \/ giveup e = true
                  \/ max_time <= clock (snd s) - start
     end.
Proof.
  unfold retry_turn. destruct (target s) as [[a | e] s1].
  - intros H. inversion H. subst. split; [reflexivity | exact I].
  - destruct (is_RequestException e) eqn:R.
    + destruct (giveup e) eqn:G; simpl.
      * intros H. inversion H. subst. split; [reflexivity | auto].
      * destruct (max_time <=? clock (snd s) - start) eqn:D.
        -- intros H. inversion H. subst. split; [reflexivity |].
           right. right. apply Z.leb_le. exact D.
        -- intros H. discriminate H.
    + intros H. inversion H. subst. split; [reflexivity | auto].
Qed.

Lemma retry_turn_Again_inv start n s s' :
  retry_turn max_time giveup target start n s = (Again, s') ->
  exists e s1,
    target s = (Raise e, s1)
    /\ is_RequestException e = true /\ giveup e = false
    /\ clock (snd s) - start < max_time
    /\ s' = snd ((seconds <- next_wait n (clock (snd s) - start) max_time ;;
                  sleep seconds) s1).
Proof.
  unfold retry_turn. destruct (target s) as [[a | e] s1]; [discriminate |].
  destruct (is_RequestException e) eqn:R; [| discriminate].
  destruct (giveup e) eqn:G; simpl; [discriminate |].
  destruct (max_time <=? clock (snd s) - start) eqn:D; [discriminate |].
  intros H. inversion H. exists e, s1. apply Z.leb_gt in D. auto.
Qed.

Lemma retry_loop_first_Ok fuel start n s a s' :
  target s = (Ok a, s') ->
  retry_loop (S fuel) max_time giveup target start n s = Some (Ok a, s').
Proof. intros H. simpl. rewrite (retry_turn_Ok _ _ _ _ _ H). reflexivity. Qed.

Lemma retry_loop_first_giveup fuel start n s e s' :
  target s = (Raise e, s') ->
  is_RequestException e = false \/ giveup e = true ->
  retry_loop (S fuel) max_time giveup target start n s = Some (Raise e, s').
Proof. intros H G. simpl. rewrite (retry_turn_giveup _ _ _ _ _ H G). reflexivity. Qed.

(** The result of the loop is the result of its last call of the target;
    an exception it lets through was not for retrying, or the call began
    at least [max_time] after [start]. *)
Lemma retry_loop_origin fuel : forall start n s r s',
  retry_loop fuel max_time giveup target start n s = Some (r, s') ->
  exists sk,
    target sk = (r, s')
    /\ match r with
       | Ok _ => True
       | Raise e => is_RequestException e = false \/ giveup e = true
                    \/ max_time <= clock (snd sk) - start
       end.
Proof.
  induction fuel as [| fuel IH]; intros start n s r s' H; [discriminate |].
  simpl in H.
  destruct (retry_turn max_time giveup target start n s) as [[r1 |] s1] eqn:T.
  - inversion H. subst. exists s. apply retry_turn_Return in T. exact T.
  - apply IH in H. exact H.
Qed.


(** What the target keeps true of the client and of the requests it adds,
    the loop keeps true. *)
Lemma retry_loop_adds (I : EdxApiClient -> Prop) (P : Request -> Prop) :
  (forall s, I (fst s) -> I (fst (snd (target s))) /\ adds P s (snd (target s))) ->
  forall fuel start n s r s',
    I (fst s) ->
    retry_loop fuel max_time giveup target start n s = Some (r, s') ->
    I (fst s') /\ adds P s s'.
Proof.
  intros Ht. induction fuel as [| fuel IH]; intros start n s r s' Hi H; [discriminate |].
  simpl in H.
  destruct (retry_turn max_time giveup target start n s) as [[r1 |] s1] eqn:T.
  - inversion H. subst. apply retry_turn_Return in T. destruct T as [T _].
    specialize (Ht s Hi). rewrite T in Ht. exact Ht.
  - apply retry_turn_Again_inv in T.
    destruct T as [e [s2 [T [_ [_ [_ E]]]]]].
    specialize (Ht s Hi). rewrite T in Ht. simpl in Ht. destruct Ht as [Hi2 Ha2].
    rewrite backoff_state in E.
    assert (Hi1 : I (fst s1)) by (subst s1; exact Hi2).
    destruct (IH _ _ _ _ _ Hi1 H) as [Hi' Ha'].
    split; [exact Hi' |].
    eapply adds_trans; [exact Ha2 |].
    destruct Ha' as [new [E' F']]. exists new. split; [| exact F'].
    rewrite E'. subst s1. reflexivity.
Qed.


End Retry.

(** ** One attempt *)

Lemma authenticated_session_get_unfold u q s :
  authenticated_session_get u q s
  = match ensure_oauth_access_token s with
    | (Ok _, s1) => session_get (session_auth (fst s1)) u q s1
    | (Raise e, s1) => (Raise e, s1)
    end.
Proof.
  unfold authenticated_session_get, bind, get_self.
  destruct (ensure_oauth_access_token s) as [[[] | e] s1]; reflexivity.
Qed.

Lemma get_resource_unfold url query key next_url s :
  get_resource url query key next_url s
  = match authenticated_session_get (if is_None next_url then url else next_url)
                                    (if is_None next_url then query else None) s with
    | (Ok raw_response, s1) =>
        match raise_for_status raw_response with
        | Raise e => (Raise e, s1)
        | Ok _ =>
            match get_next_url_from_response key raw_response with
            | Raise e => (Raise e, s1)
            | Ok next_url' => (Ok (raw_response, next_url'), s1)
            end
        end
    | (Raise e, s1) => (Raise e, s1)
    end.
Proof.
  unfold get_resource, bind, lift, ret.
  destruct (is_None next_url);
    match goal with
    | |- context [authenticated_session_get ?u ?q s] =>
        destruct (authenticated_session_get u q s) as [[raw | e] s1]
    end; try reflexivity;
    destruct (raise_for_status raw); try reflexivity;
    destruct (get_next_url_from_response key raw); reflexivity.
Qed.

Lemma get_resource_state url query key next_url s :
  snd (get_resource url query key next_url s)
  = snd (authenticated_session_get (if is_None next_url then url else next_url)
                                   (if is_None next_url then query else None) s).
Proof.
  rewrite get_resource_unfold.
  destruct (authenticated_session_get _ _ s) as [[raw | e] s1]; [| reflexivity].
  destruct (raise_for_status raw); [| reflexivity].
  destruct (get_next_url_from_response key raw); reflexivity.
Qed.

Lemma get_resource_Ok_inv url query key next_url s response locator s' :
  get_resource url query key next_url s = (Ok (response, locator), s') ->
  authenticated_session_get (if is_None next_url then url else next_url)
                            (if is_None next_url then query else None) s
  = (Ok response, s')
  /\ raise_for_status response = Ok tt
  /\ get_next_url_from_response key response = Ok locator.
Proof.
  rewrite get_resource_unfold.
  destruct (authenticated_session_get _ _ s) as [[raw | e] s1]; [| discriminate].
  destruct (raise_for_status raw) as [[] |] eqn:R; [| discriminate].
  destruct (get_next_url_from_response key raw) eqn:N; [| discriminate].
  intros H. inversion H. subst. auto.
Qed.

Lemma raise_for_status_error r :
  400 <= status_code r < 600 ->
  raise_for_status r = Raise (RequestException HTTPError (Some r)).
Proof.
  intros [H1 H2]. unfold raise_for_status.
  apply Z.leb_le in H1. apply Z.ltb_lt in H2. rewrite H1, H2. reflexivity.
Qed.

Lemma raise_for_status_quiet r :
  ~ 400 <= status_code r < 600 -> raise_for_status r = Ok tt.
Proof.
  intros H. unfold raise_for_status.
  destruct (400 <=? status_code r) eqn:H1; [| reflexivity].
  destruct (status_code r <? 600) eqn:H2; [| reflexivity].
  apply Z.leb_le in H1. apply Z.ltb_lt in H2. exfalso. apply H. lia.
Qed.

Lemma should_giveup_no_response retry_on e :
  error_response e = None -> should_giveup retry_on e = true.
Proof. intros H. unfold should_giveup. rewrite H. reflexivity. Qed.

Lemma should_giveup_status retry_on cls r :
  should_giveup retry_on (RequestException cls (Some r))
  = negb (status_in (status_code r) retry_on).
Proof. reflexivity. Qed.

(** *** Counting GETs *)

Lemma GET_count_adds_POST s s' :
  adds (fun q => method q = POST) s s' -> GET_count s' = GET_count s.
Proof.
  intros [new [E F]]. unfold GET_count. rewrite E, filter_app, length_app.
  assert (Hnil : filter is_GET new = []).
  { clear E. induction F as [| q l Hq _ IH]; [reflexivity |].
    simpl. unfold is_GET at 1. rewrite Hq. exact IH. }
  rewrite Hnil. reflexivity.
Qed.

Lemma GET_count_session_get a u q s :
  GET_count (snd (session_get a u q s)) = S (GET_count s).
Proof. unfold session_get. rewrite send_state. reflexivity. Qed.

Lemma GET_count_authenticated_session_get_Ok u q s r s' :
  authenticated_session_get u q s = (Ok r, s') -> GET_count s' = S (GET_count s).
Proof.
  rewrite authenticated_session_get_unfold.
  pose proof (ensure_self_unchanged_world s) as Ha.
  destruct (ensure_oauth_access_token s) as [[[] | e] s1]; [| discriminate].
  simpl in Ha. apply GET_count_adds_POST in Ha.
  intros H. rewrite <- Ha.
  replace s' with (snd (session_get (session_auth (fst s1)) u q s1))
    by (rewrite H; reflexivity).
  apply GET_count_session_get.
Qed.

Lemma GET_count_authenticated_session_get u q s :
  (GET_count (snd (authenticated_session_get u q s)) <= S (GET_count s))%nat.
Proof.
  rewrite authenticated_session_get_unfold.
  pose proof (ensure_self_unchanged_world s) as Ha.
  destruct (ensure_oauth_access_token s) as [[[] | e] s1];
    simpl in Ha; apply GET_count_adds_POST in Ha.
  - rewrite GET_count_session_get. lia.
  - simpl. lia.
Qed.

Lemma GET_count_get_resource url query key next_url s :
  (GET_count (snd (get_resource url query key next_url s)) <= S (GET_count s))%nat.
Proof. rewrite get_resource_state. apply GET_count_authenticated_session_get. Qed.

Lemma default_retry_status_codes c :
  status_in c DEFAULT_RETRY_STATUS_CODES = true
  <-> In c [408; 429; 502; 503; 504; 520].
Proof.
  unfold status_in, DEFAULT_RETRY_STATUS_CODES. rewrite existsb_exists. split.
  - intros [x [Hin Hx]]. apply Z.eqb_eq in Hx. subst x. simpl in *. tauto.
  - intros Hin. exists c. split; [simpl in *; tauto | apply Z.eqb_refl].
Qed.

(** C1, as amended. An attempt that raises an exception with no response
    attached (a connection reset, a timeout, a DNS failure) makes
    [should_giveup] answer yes: the executor re-raises it after this one
    attempt, without sleeping and without another request, whatever is
    left of the time budget. *)
Theorem error_without_response_is_not_retried
        url query timeout_seconds retry_on key fuel next_url s e s' :
  get_resource url query key next_url s = (Raise e, s') ->
  error_response e = None ->
  should_giveup retry_on e = true
  /\ get_resource_with_retry url query timeout_seconds retry_on key
                             (S fuel) next_url s
     = Some (Raise e, s')
  /\ (GET_count s' <= S (GET_count s))%nat.
Proof.
  intros H Hn. split; [apply should_giveup_no_response; exact Hn |]. split.
  - unfold get_resource_with_retry, on_exception.
    apply retry_loop_first_giveup; [exact H |].
    right. apply should_giveup_no_response. exact Hn.
  - replace s' with (snd (get_resource url query key next_url s))
      by (rewrite H; reflexivity).
    apply GET_count_get_resource.
Qed.

(** C6, as amended. When the response to the first attempt has a status
    that [raise_for_status] treats as an error (400 to 599) and that is
    not in [retry_on], the executor makes this one attempt and raises the
    [HTTPError] that carries the response: one GET, no sleep, no retry.
    404 is such a status under the default set, which is 408, 429, 502,
    503, 504 and 520. *)
Theorem error_status_outside_retry_on_is_raised_at_once
        url query timeout_seconds retry_on key fuel next_url s r s1 :
  authenticated_session_get (if is_None next_url then url else next_url)
                            (if is_None next_url then query else None) s
  = (Ok r, s1) ->
  400 <= status_code r < 600 ->
  status_in (status_code r) retry_on = false ->
  get_resource_with_retry url query timeout_seconds retry_on key
                          (S fuel) next_url s
  = Some (Raise (RequestException HTTPError (Some r)), s1)
  /\ GET_count s1 = S (GET_count s)
  /\ status_in 404 DEFAULT_RETRY_STATUS_CODES = false
  /\ (forall c, status_in c DEFAULT_RETRY_STATUS_CODES = true
                <-> In c [408; 429; 502; 503; 504; 520]).
Proof.
  intros H Hs Hr. split; [| split; [| split]].
  - unfold get_resource_with_retry, on_exception.
    apply retry_loop_first_giveup.
    + rewrite get_resource_unfold, H, (raise_for_status_error _ Hs). reflexivity.
    + right. rewrite should_giveup_status, Hr. reflexivity.
  - eapply GET_count_authenticated_session_get_Ok. exact H.
  - reflexivity.
  - exact default_retry_status_codes.
Qed.

(** C10. A response that [raise_for_status] accepts, a 2xx one in
    particular, is parsed as JSON before it is yielded, whatever the
    pagination key: when its body is not JSON the page fetch raises after
    this one attempt, so [paginated_get] yields nothing and [get], which
    passes [pagination_key=None], raises too. *)
Theorem successful_response_with_invalid_JSON_raises
        url query timeout_seconds retry_on key pages fuel s r s1 :
  authenticated_session_get url query s = (Ok r, s1) ->
  200 <= status_code r < 300 ->
  body r = None ->
  paginated_get url query timeout_seconds retry_on key (S pages) (S fuel) s
  = Some ([], Some (RequestException JSONDecodeError None), s1)
  /\ get url query timeout_seconds retry_on (S fuel) s
     = Some (Raise (RequestException JSONDecodeError None), s1).
Proof.
  intros H Hs Hb.
  assert (Hget : forall key',
             get_resource_with_retry url query timeout_seconds retry_on key'
                                     (S fuel) JNull s
             = Some (Raise (RequestException JSONDecodeError None), s1)).
  { intros key'. unfold get_resource_with_retry, on_exception.
    apply retry_loop_first_giveup.
    - rewrite get_resource_unfold. cbn [is_None]. rewrite H.
      rewrite raise_for_status_quiet by lia.
      unfold get_next_url_from_response, response_json. rewrite Hb. reflexivity.
    - right. reflexivity. }
  split.
  - unfold paginated_get. cbn [consume paginated_get_next].
    unfold fetch_and_yield. rewrite Hget. reflexivity.
  - unfold get. cbn [paginated_get_next].
    unfold fetch_and_yield. rewrite Hget. reflexivity.
Qed.

(** ** What the requests of a page fetch look like *)

Lemma get_resource_with_retry_adds (I : EdxApiClient -> Prop) (P : Request -> Prop)
      url query timeout_seconds retry_on key next_url :
  (forall s, I (fst s) ->
             I (fst (snd (get_resource url query key next_url s)))
             /\ adds P s (snd (get_resource url query key next_url s))) ->
  forall fuel s r s',
    I (fst s) ->
    get_resource_with_retry url query timeout_seconds retry_on key fuel next_url s
    = Some (r, s') ->
    I (fst s') /\ adds P s s'.
Proof.
  intros Ht fuel s r s' Hi H. unfold get_resource_with_retry, on_exception in H.
  eapply retry_loop_adds; eauto.
Qed.

Lemma paginated_get_next_adds (I : EdxApiClient -> Prop) (P : Request -> Prop)
      url query timeout_seconds retry_on key :
  (forall next_url s, I (fst s) ->
             I (fst (snd (get_resource url query key next_url s)))
             /\ adds P s (snd (get_resource url query key next_url s))) ->
  forall fuel g s x g' s',
    I (fst s) ->
    paginated_get_next url query timeout_seconds retry_on key fuel g s
    = Some (x, g', s') ->
    I (fst s') /\ adds P s s'.
Proof.
  intros Ht fuel g s x g' s' Hi H.
  assert (Hf : forall next_url,
             fetch_and_yield url query timeout_seconds retry_on key fuel next_url s
             = Some (x, g', s') -> I (fst s') /\ adds P s s').
  { intros next_url Hy. unfold fetch_and_yield in Hy.
    destruct (get_resource_with_retry url query timeout_seconds retry_on key
                                      fuel next_url s)
      as [[r s1] |] eqn:E; [| discriminate].
    assert (s1 = s') by (destruct r as [[? ?] | ?]; inversion Hy; reflexivity).
    subst s1.
    eapply get_resource_with_retry_adds; [apply Ht | exact Hi | exact E]. }
  destruct g as [| next_url |]; simpl in H.
  - eapply Hf. exact H.
  - destruct (is_None next_url).
    + inversion H. subst. split; [exact Hi | apply adds_refl].
    + eapply Hf. exact H.
  - inversion H. subst. split; [exact Hi | apply adds_refl].
Qed.

Lemma consume_adds (I : EdxApiClient -> Prop) (P : Request -> Prop)
      url query timeout_seconds retry_on key :
  (forall next_url s, I (fst s) ->
             I (fst (snd (get_resource url query key next_url s)))
             /\ adds P s (snd (get_resource url query key next_url s))) ->
  forall pages fuel g s rs e s',
    I (fst s) ->
    consume url query timeout_seconds retry_on key pages fuel g s
    = Some (rs, e, s') ->
    I (fst s') /\ adds P s s'.
Proof.
  intros Ht. induction pages as [| pages IH]; intros fuel g s rs e s' Hi H;
    [discriminate |].
  simpl in H.
  destruct (paginated_get_next url query timeout_seconds retry_on key fuel g s)
    as [[[x g1] s1] |] eqn:E; [| discriminate].
  destruct (paginated_get_next_adds I P _ _ _ _ _ Ht _ _ _ _ _ _ Hi E) as [Hi1 Ha1].
  destruct x as [response | | e1].
  - destruct (consume url query timeout_seconds retry_on key pages fuel g1 s1)
      as [[[rs2 e2] s2] |] eqn:E2; [| discriminate].
    inversion H. subst.
    destruct (IH _ _ _ _ _ _ Hi1 E2) as [Hi2 Ha2].
    split; [exact Hi2 | eapply adds_trans; eassumption].
  - inversion H. subst. auto.
  - inversion H. subst. auto.
Qed.

(** The GET of an attempt is for the page it was asked for. *)
Lemma get_resource_aims_at url query key next_url s :
  adds (aims_at (if is_None next_url then url else next_url)
                (if is_None next_url then query else None))
       s (snd (get_resource url query key next_url s)).
Proof.
  rewrite get_resource_state, authenticated_session_get_unfold.
  assert (Ha : adds (aims_at (if is_None next_url then url else next_url)
                             (if is_None next_url then query else None))
                    s (snd (ensure_oauth_access_token s))).
  { eapply adds_weaken; [| apply ensure_self_unchanged_world].
    intros q Hq Hg. simpl in Hq. congruence. }
  destruct (ensure_oauth_access_token s) as [[[] | e] s1]; simpl in Ha.
  - eapply adds_trans; [exact Ha |]. unfold session_get.
    apply send_adds. intros _. split; reflexivity.
  - exact Ha.
Qed.

(** Under the token endpoint of scenario A, the GET of an attempt carries
    "jwt abc". *)
Lemma get_resource_carries_jwt_abc url query key next_url :
  (forall history q, method q = POST ->
     exists r, outcome (server history q) = inr r /\ body r = Some token_body) ->
  forall s, holds_jwt_abc (fst s) ->
    holds_jwt_abc (fst (snd (get_resource url query key next_url s)))
    /\ adds (carries "jwt abc") s (snd (get_resource url query key next_url s)).
Proof.
  intros Htoken [self w] [Hty Hcred]. cbn [fst] in *.
  rewrite get_resource_state, authenticated_session_get_unfold.
  destruct (token_missing_or_expired (_expires_at self) (clock w)) eqn:Hm.
  - destruct (Htoken (sent w) (token_request self) eq_refl) as [r [Hr Hb]].
    destruct (datetime_add (clock w) (3600 * second)) as [expires_at | e] eqn:Hsum.
    + destruct (ensure_stale_Ok self w r token_body (JStr "abc") (JNum 3600)
                                (3600 * second) expires_at
                                Hm Hr Hb eq_refl eq_refl eq_refl Hsum)
        as [ttype [Ht E]].
      simpl in Ht. inversion Ht. subst ttype. rewrite E. cbn [fst snd].
      unfold session_get. rewrite send_state. cbn [fst snd]. split.
      * split; [exact Hty | right; rewrite Hty; reflexivity].
      * exists [mkRequest GET (if is_None next_url then url else next_url)
                          (if is_None next_url then query else None) []
                          (option_map SuppliedAuth_call
                                      (Some (mkSuppliedAuth (JStr "abc")
                                                            (token_type self))));
                token_request self].
        split; [reflexivity |].
        repeat constructor.
        -- intros _. rewrite Hty. reflexivity.
        -- intros Hq. discriminate Hq.
    + destruct (ensure_stale_expiry_error self w r token_body (JStr "abc")
                                          (JNum 3600) e Hm Hr Hb eq_refl eq_refl)
        as [ttype [Ht E]].
      { right. exists (3600 * second). split; [reflexivity | exact Hsum]. }
      simpl in Ht. inversion Ht. subst ttype. rewrite E. cbn [fst snd]. split.
      * split; [exact Hty | right; rewrite Hty; reflexivity].
      * exists [token_request self]. split; [reflexivity |].
        repeat constructor. intros Hq. discriminate Hq.
  - rewrite (ensure_fresh _ _ Hm). cbn [fst snd].
    unfold session_get. split.
    + rewrite send_state. split; assumption.
    + destruct Hcred as [Hnone | Hcred].
      * rewrite Hnone in Hm. discriminate Hm.
      * apply send_adds. intros _. cbn [authorization].
        rewrite Hcred. reflexivity.
Qed.

(** C9. Scenario A: the token endpoint answers
    [{"access_token": "abc", "expires_in": 3600}] and the client was made
    without a token type, so that it prefers "jwt". Then every GET that
    [paginated_get] or [get] issues carries the header
    [Authorization: jwt abc]; the header value is the token type, a space
    and the access token. *)
Theorem scenario_A_requests_carry_jwt_abc
        url query timeout_seconds retry_on key auth_url client_id client_secret w :
  (forall history q, method q = POST ->
     exists r, outcome (server history q) = inr r /\ body r = Some token_body) ->
  token_type (new_client auth_url client_id client_secret JNull) = JStr "jwt"
  /\ (forall access_token ttype,
         SuppliedAuth_call (mkSuppliedAuth (JStr access_token) (JStr ttype))
         = (ttype ++ " " ++ access_token)%string)
  /\ (forall pages fuel rs e s',
         paginated_get url query timeout_seconds retry_on key pages fuel
                       (new_client auth_url client_id client_secret JNull, w)
         = Some (rs, e, s') ->
         adds (carries "jwt abc")
              (new_client auth_url client_id client_secret JNull, w) s')
  /\ (forall fuel r s',
         get url query timeout_seconds retry_on fuel
             (new_client auth_url client_id client_secret JNull, w)
         = Some (r, s') ->
         adds (carries "jwt abc")
              (new_client auth_url client_id client_secret JNull, w) s').
Proof.
  intros Htoken.
  assert (Hi : holds_jwt_abc (new_client auth_url client_id client_secret JNull))
    by (split; [reflexivity | left; reflexivity]).
  split; [reflexivity |]. split; [reflexivity |]. split.
  - intros pages fuel rs e s' H. unfold paginated_get in H.
    eapply (consume_adds holds_jwt_abc (carries "jwt abc")); [| | exact H].
    + intros next_url s Hs. apply get_resource_carries_jwt_abc; assumption.
    + exact Hi.
  - intros fuel r s' H. unfold get in H.
    destruct (paginated_get_next url query timeout_seconds retry_on KeyOther fuel
                Created (new_client auth_url client_id client_secret JNull, w))
      as [[[x g1] s1] |] eqn:E; [| discriminate].
    assert (s1 = s') by (destruct x; inversion H; reflexivity). subst s1.
    eapply (paginated_get_next_adds holds_jwt_abc (carries "jwt abc")); [| | exact E].
    + intros next_url s Hs. apply get_resource_carries_jwt_abc; assumption.
    + exact Hi.
Qed.

(** ** The single page *)

Lemma get_inv url query timeout_seconds retry_on fuel s r s' :
  get url query timeout_seconds retry_on fuel s = Some (r, s') ->
  exists x,
    get_resource_with_retry url query timeout_seconds retry_on KeyOther fuel JNull s
    = Some (x, s')
    /\ match x with
       | Ok (response, _) => r = Ok response
       | Raise e => r = Raise e
       end.
Proof.
  unfold get. cbn [paginated_get_next]. unfold fetch_and_yield.
  destruct (get_resource_with_retry url query timeout_seconds retry_on KeyOther
                                    fuel JNull s)
    as [[[[response locator] | e] s1] |]; [| | discriminate].
  - intros H. inversion H. subst. exists (Ok (response, locator)). auto.
  - intros H. inversion H. subst. exists (Raise e). auto.
Qed.

(** C7, as amended. [get] fetches the first page and no other. Every GET
    it issues is for [url] with [params], so the attempts it repeats are
    attempts at this page; the response it returns is the answer to the
    last of them, and nothing is sent after it. When the first answer is
    accepted by [raise_for_status] and is JSON, [get] has issued exactly
    one GET and returns that answer, also when its body has a value under
    [next]. *)
Theorem get_fetches_the_first_page_only url query timeout_seconds retry_on :
  (forall fuel s r s',
      get url query timeout_seconds retry_on fuel s = Some (r, s') ->
      adds (aims_at url query) s s')
  /\ (forall fuel s response s',
         get url query timeout_seconds retry_on fuel s = Some (Ok response, s') ->
         exists sk, authenticated_session_get url query sk = (Ok response, s'))
  /\ (forall fuel s response s1 content,
         authenticated_session_get url query s = (Ok response, s1) ->
         ~ 400 <= status_code response < 600 ->
         body response = Some content ->
         get url query timeout_seconds retry_on (S fuel) s = Some (Ok response, s1)
         /\ GET_count s1 = S (GET_count s)).
Proof.
  split; [| split].
  - intros fuel s r s' H. apply get_inv in H. destruct H as [x [H _]].
    eapply (get_resource_with_retry_adds (fun _ => True) (aims_at url query));
      [| exact I | exact H].
    intros s0 _. split; [exact I |].
    apply (get_resource_aims_at url query KeyOther JNull s0).
  - intros fuel s response s' H. apply get_inv in H. destruct H as [x [H Hx]].
    unfold get_resource_with_retry, on_exception in H.
    apply retry_loop_origin in H. destruct H as [sk [H _]].
    destruct x as [[response' locator] | e]; [| discriminate Hx].
    inversion Hx. subst response'.
    apply get_resource_Ok_inv in H. destruct H as [H _].
    exists sk. exact H.
  - intros fuel s response s1 content H Hs Hb. split.
    + unfold get. cbn [paginated_get_next]. unfold fetch_and_yield.
      unfold get_resource_with_retry, on_exception.
      rewrite (retry_loop_first_Ok _ _ _ fuel _ _ s (response, JNull) s1);
        [reflexivity |].
      rewrite get_resource_unfold. cbn [is_None]. rewrite H.
      rewrite (raise_for_status_quiet _ Hs).
      unfold get_next_url_from_response, response_json. rewrite Hb. reflexivity.
    + eapply GET_count_authenticated_session_get_Ok. exact H.
Qed.

(** ** The page sequence *)

Lemma is_None_false v : v <> JNull -> is_None v = false.
Proof. destruct v; [congruence | reflexivity ..]. Qed.

Lemma is_None_true v : is_None v = true -> v = JNull.
Proof. destruct v; [reflexivity | discriminate ..]. Qed.

Lemma fetch_and_yield_Yield_inv url query timeout_seconds retry_on key fuel
      next_url s response g' s' :
  fetch_and_yield url query timeout_seconds retry_on key fuel next_url s
  = Some (Yield response, g', s') ->
  exists locator,
    g' = Suspended locator
    /\ raise_for_status response = Ok tt
    /\ get_next_url_from_response key response = Ok locator.
Proof.
  unfold fetch_and_yield.
  destruct (get_resource_with_retry url query timeout_seconds retry_on key
                                    fuel next_url s)
    as [[[[response' locator] | e] s1] |] eqn:E; try discriminate.
  intros H. inversion H. subst.
  unfold get_resource_with_retry, on_exception in E.
  apply retry_loop_origin in E. destruct E as [sk [E _]].
  apply get_resource_Ok_inv in E. destruct E as [_ [Hr Hn]].
  exists locator. auto.
Qed.

Lemma fetch_and_yield_never_stops url query timeout_seconds retry_on key fuel
      next_url s x g' s' :
  fetch_and_yield url query timeout_seconds retry_on key fuel next_url s
  = Some (x, g', s') ->
  x <> StopIteration.
Proof.
  unfold fetch_and_yield.
  destruct (get_resource_with_retry url query timeout_seconds retry_on key
                                    fuel next_url s)
    as [[[[response' locator] | e] s1] |]; try discriminate;
    intros H; inversion H; discriminate.
Qed.

(** C2, as amended. With a callable [pagination_key], the page that was
    just yielded ends the sequence exactly when the callable returned
    [None] on its parsed body: then the next step stops and sends
    nothing. Any other value, a falsy one such as the empty string or the
    empty list included, is taken as the next URL: the next step does not
    stop, it calls the page fetch with that value, whose GET is for it. *)
Theorem callable_key_ends_the_sequence_on_None_only
        url query timeout_seconds retry_on f fuel g s response g' s' :
  paginated_get_next url query timeout_seconds retry_on (KeyCallable f) fuel g s
  = Some (Yield response, g', s') ->
  exists obj locator,
    body response = Some obj
    /\ f obj = Ok locator
    /\ g' = Suspended locator
    /\ (locator = JNull ->
        forall fuel',
          paginated_get_next url query timeout_seconds retry_on (KeyCallable f)
                             fuel' g' s'
          = Some (StopIteration, Finished, s'))
    /\ (locator <> JNull ->
        forall fuel',
          paginated_get_next url query timeout_seconds retry_on (KeyCallable f)
                             fuel' g' s'
          = fetch_and_yield url query timeout_seconds retry_on (KeyCallable f)
                            fuel' locator s'
          /\ (forall x g'' s'',
                 paginated_get_next url query timeout_seconds retry_on
                                    (KeyCallable f) fuel' g' s'
                 = Some (x, g'', s'') -> x <> StopIteration)
          /\ adds (aims_at locator None) s'
                  (snd (get_resource url query (KeyCallable f) locator s'))).
Proof.
  intros H.
  assert (Hy : exists next_url,
             fetch_and_yield url query timeout_seconds retry_on (KeyCallable f)
                             fuel next_url s
             = Some (Yield response, g', s')).
  { destruct g as [| next_url |]; simpl in H.
    - exists JNull. exact H.
    - destruct (is_None next_url); [discriminate |]. exists next_url. exact H.
    - discriminate. }
  destruct Hy as [next_url Hy].
  apply fetch_and_yield_Yield_inv in Hy. destruct Hy as [locator [Hg [_ Hn]]].
  unfold get_next_url_from_response, response_json in Hn.
  destruct (body response) as [obj |] eqn:Hb; [| discriminate].
  exists obj, locator. subst g'.
  split; [reflexivity |]. split; [exact Hn |]. split; [reflexivity |]. split.
  - intros Hl fuel'. subst locator. reflexivity.
  - intros Hl fuel'. simpl. rewrite (is_None_false _ Hl).
    split; [reflexivity |]. split.
    + intros x g'' s''. apply fetch_and_yield_never_stops.
    + pose proof (get_resource_aims_at url query (KeyCallable f) locator s') as Ha.
      rewrite (is_None_false _ Hl) in Ha. exact Ha.
Qed.

Lemma consume_pages_until_absent url query timeout_seconds retry_on key fuel :
  forall n next_url s rs s',
    pages_until_absent url query timeout_seconds retry_on key fuel
                       n next_url s rs s' ->
    forall g extra,
      paginated_get_next url query timeout_seconds retry_on key fuel g s
      = fetch_and_yield url query timeout_seconds retry_on key fuel next_url s ->
      consume url query timeout_seconds retry_on key (S n + extra) fuel g s
      = Some (rs, None, s')
      /\ List.length rs = n.
Proof.
  intros n next_url s rs s' H.
  induction H as [next_url s response s' E
                 | n next_url s response locator s1 rs s' E Hl Hrest IH];
    intros g extra Hg.
  - cbn [Nat.add consume]. rewrite Hg. unfold fetch_and_yield. rewrite E.
    split; reflexivity.
  - replace (S (S n) + extra)%nat with (S (S n + extra)) by reflexivity.
    cbn [consume]. rewrite Hg. unfold fetch_and_yield at 1. rewrite E.
    destruct (IH (Suspended locator) extra) as [Hc Hlen].
    { simpl. rewrite (is_None_false _ Hl). reflexivity. }
    rewrite Hc. split; [reflexivity | simpl; rewrite Hlen; reflexivity].
Qed.

(** C5. When the page fetches of a traversal succeed and the locator
    extracted by the pagination key is present on the first [n - 1] pages
    and absent on the [n]-th, [paginated_get] yields exactly these [n]
    responses and ends without an exception; the final state is the one
    the [n]-th fetch left, so nothing was fetched after it. *)
Theorem paginated_get_yields_exactly_the_pages_before_absent_locator
        url query timeout_seconds retry_on key fuel n s rs s' extra :
  pages_until_absent url query timeout_seconds retry_on key fuel n JNull s rs s' ->
  paginated_get url query timeout_seconds retry_on key (S n + extra) fuel s
  = Some (rs, None, s')
  /\ List.length rs = n
  /\ (forall fuel',
         paginated_get_next url query timeout_seconds retry_on key fuel'
                            (Suspended JNull) s'
         = Some (StopIteration, Finished, s')).
Proof.
  intros H.
  destruct (consume_pages_until_absent _ _ _ _ _ _ _ _ _ _ _ H Created extra eq_refl)
    as [Hc Hlen].
  split; [exact Hc |]. split; [exact Hlen |]. intros fuel'. reflexivity.
Qed.

(** ** The deadline *)

(** C3. The deadline of the retry loop is counted from the call of the
    page fetch. A page fetch entered in any state, whatever time earlier
    pages took, gives up on an exception that is for retrying only in an
    attempt that began [timeout_seconds] or more after this entry; an
    attempt that began that late and fails is the last, and its exception
    is raised; and a first attempt that fails with such an exception is
    followed by a wait and a second attempt whenever [timeout_seconds] is
    positive. [paginated_get] makes one such call for each page. The
    default deadline is 7200 seconds. *)
Theorem retry_deadline_is_counted_per_page_fetch
        url query timeout_seconds retry_on key next_url :
  DEFAULT_TIMEOUT_SECONDS = 7200 * second
  /\ (forall fuel s e s',
         get_resource_with_retry url query timeout_seconds retry_on key
                                 fuel next_url s
         = Some (Raise e, s') ->
         is_RequestException e = true ->
         should_giveup retry_on e = false ->
         exists sk,
           get_resource url query key next_url sk = (Raise e, s')
           /\ timeout_seconds <= clock (snd sk) - clock (snd s))
  /\ (forall fuel start n sk e s',
         get_resource url query key next_url sk = (Raise e, s') ->
         timeout_seconds <= clock (snd sk) - start ->
         retry_loop (S fuel) timeout_seconds (should_giveup retry_on)
                    (get_resource url query key next_url) start n sk
         = Some (Raise e, s'))
  /\ (forall fuel s e s1,
         get_resource url query key next_url s = (Raise e, s1) ->
         is_RequestException e = true ->
         should_giveup retry_on e = false ->
         0 < timeout_seconds ->
         get_resource_with_retry url query timeout_seconds retry_on key
                                 (S fuel) next_url s
         = retry_loop fuel timeout_seconds (should_giveup retry_on)
                      (get_resource url query key next_url) (clock (snd s)) 1
                      (snd ((seconds <- next_wait 0 0 timeout_seconds ;;
                             sleep seconds) s1)))
  /\ (forall fuel locator s,
         locator <> JNull ->
         paginated_get_next url query timeout_seconds retry_on key fuel
                            (Suspended locator) s
         = fetch_and_yield url query timeout_seconds retry_on key fuel locator s).
Proof.
  split; [reflexivity |]. split; [| split; [| split]].
  - intros fuel s e s' H Hr Hg.
    unfold get_resource_with_retry, on_exception in H.
    apply retry_loop_origin in H. destruct H as [sk [H Hwhy]].
    exists sk. split; [exact H |].
    destruct Hwhy as [Hwhy | [Hwhy | Hwhy]]; [congruence | congruence | exact Hwhy].
  - intros fuel start n sk e s' H Hd. simpl.
    rewrite (retry_turn_deadline _ _ _ _ _ _ _ _ H Hd). reflexivity.
  - intros fuel s e s1 H Hr Hg Hpos.
    unfold get_resource_with_retry, on_exception. cbn [retry_loop].
    rewrite (retry_turn_Again _ _ _ _ _ _ _ _ H Hr Hg) by lia.
    rewrite Z.sub_diag. reflexivity.
  - intros fuel locator s Hl. simpl. rewrite (is_None_false _ Hl). reflexivity.
Qed.


(** * Further properties of the client *)

(** ** Which URL and which query a page fetch uses *)

(** X1. The first page is requested at [url] with [params]; every later
    page is requested at the locator the previous page gave, without
    [params]. This holds for every GET of the step, retries included. *)
Theorem later_pages_are_requested_at_the_locator_without_params
        url query timeout_seconds retry_on key fuel g s x g' s' :
  paginated_get_next url query timeout_seconds retry_on key fuel g s
  = Some (x, g', s') ->
  match g with
  | Created => adds (aims_at url query) s s'
  | Suspended locator => adds (aims_at locator None) s s'
  | Finished => s' = s
  end.
Proof.
  intros H.
  assert (Hf : forall next_url,
             fetch_and_yield url query timeout_seconds retry_on key fuel next_url s
             = Some (x, g', s') ->
             adds (aims_at (if is_None next_url then url else next_url)
                           (if is_None next_url then query else None)) s s').
  { intros next_url Hy. unfold fetch_and_yield in Hy.
    destruct (get_resource_with_retry url query timeout_seconds retry_on key
                                      fuel next_url s)
      as [[r s1] |] eqn:E; [| discriminate].
    assert (s1 = s') by (destruct r as [[? ?] | ?]; inversion Hy; reflexivity).
    subst s1.
    eapply (get_resource_with_retry_adds (fun _ => True)); [| exact I | exact E].
    intros s0 _. split; [exact I | apply get_resource_aims_at]. }
  destruct g as [| locator |]; simpl in H.
  - apply (Hf JNull). exact H.
  - destruct (is_None locator) eqn:En.
    + inversion H. subst. apply adds_refl.
    + specialize (Hf locator H). rewrite En in Hf. exact Hf.
  - inversion H. reflexivity.
Qed.

(** ** The locator under a string key *)

(** X2. With a string [pagination_key], a page that is yielded has a JSON
    object as its body, and the locator kept for the next step is the
    value of that field, or [None] when the field is missing. When the
    field is missing or null the next step ends the sequence and sends
    nothing. *)
Theorem string_key_reads_the_field_of_the_body
        url query timeout_seconds retry_on name fuel g s response g' s' :
  paginated_get_next url query timeout_seconds retry_on (KeyStr name) fuel g s
  = Some (Yield response, g', s') ->
  exists fields,
    body response = Some (JObj fields)
    /\ g' = Suspended (match assoc name fields with Some v => v | None => JNull end)
    /\ (assoc name fields = None \/ assoc name fields = Some JNull ->
        forall fuel',
          paginated_get_next url query timeout_seconds retry_on (KeyStr name)
                             fuel' g' s'
          = Some (StopIteration, Finished, s')).
Proof.
  intros H.
  assert (Hy : exists next_url,
             fetch_and_yield url query timeout_seconds retry_on (KeyStr name)
                             fuel next_url s
             = Some (Yield response, g', s')).
  { destruct g as [| next_url |]; simpl in H.
    - exists JNull. exact H.
    - destruct (is_None next_url); [discriminate |]. exists next_url. exact H.
    - discriminate. }
  destruct Hy as [next_url Hy].
  apply fetch_and_yield_Yield_inv in Hy. destruct Hy as [locator [Hg [_ Hn]]].
  unfold get_next_url_from_response, response_json in Hn.
  destruct (body response) as [obj |] eqn:Hb; [| discriminate].
  destruct obj as [| | | | | fields]; try discriminate Hn.
  exists fields. split; [reflexivity |].
  simpl in Hn. subst g'.
  destruct (assoc name fields) as [v |] eqn:Ha; inversion Hn; subst locator.
  - split; [reflexivity |]. intros [Hnone | Hnull] fuel'; [discriminate |].
    inversion Hnull. reflexivity.
  - split; [reflexivity |]. intros _ fuel'. reflexivity.
Qed.

(** A page whose locator cannot be extracted is not yielded. *)
Lemma locator_failure_loses_the_page
      url query timeout_seconds retry_on key pages fuel next_url s r s1 e :
  authenticated_session_get (if is_None next_url then url else next_url)
                            (if is_None next_url then query else None) s
  = (Ok r, s1) ->
  ~ 400 <= status_code r < 600 ->
  get_next_url_from_response key r = Raise e ->
  is_RequestException e = false ->
  get_resource_with_retry url query timeout_seconds retry_on key (S fuel) next_url s
  = Some (Raise e, s1)
  /\ consume url query timeout_seconds retry_on key (S pages) (S fuel)
             (if is_None next_url then Created else Suspended next_url) s
     = Some ([], Some e, s1).
Proof.
  intros H Hs Hn He.
  assert (Hget : get_resource_with_retry url query timeout_seconds retry_on key
                                         (S fuel) next_url s
                 = Some (Raise e, s1)).
  { unfold get_resource_with_retry, on_exception.
    apply retry_loop_first_giveup; [| left; exact He].
    rewrite get_resource_unfold, H, (raise_for_status_quiet _ Hs), Hn.
    reflexivity. }
  split; [exact Hget |].
  destruct (is_None next_url) eqn:En.
  - apply is_None_true in En. subst next_url.
    cbn [consume paginated_get_next]. unfold fetch_and_yield.
    rewrite Hget. reflexivity.
  - cbn [consume paginated_get_next]. rewrite En. unfold fetch_and_yield.
    rewrite Hget. reflexivity.
Qed.

(** X3. With a string [pagination_key], an accepted response whose JSON
    body is not an object (a list, a string, a number, null) makes the
    page fetch raise [AttributeError] after this one attempt: the page is
    not yielded. [get], which passes no key, returns the same response. *)
Theorem string_key_on_a_body_that_is_no_object_raises
        url query timeout_seconds retry_on name pages fuel s r s1 v :
  authenticated_session_get url query s = (Ok r, s1) ->
  ~ 400 <= status_code r < 600 ->
  body r = Some v ->
  is_dict v = false ->
  paginated_get url query timeout_seconds retry_on (KeyStr name) (S pages) (S fuel) s
  = Some ([], Some AttributeError, s1)
  /\ get url query timeout_seconds retry_on (S fuel) s = Some (Ok r, s1).
Proof.
  intros H Hs Hb Hv. split.
  - unfold paginated_get.
    apply (locator_failure_loses_the_page url query timeout_seconds retry_on
             (KeyStr name) pages fuel JNull s r s1 AttributeError H Hs).
    + unfold get_next_url_from_response, response_json. rewrite Hb.
      destruct v; try reflexivity. discriminate Hv.
    + reflexivity.
  - unfold get. cbn [paginated_get_next]. unfold fetch_and_yield.
    unfold get_resource_with_retry, on_exception.
    rewrite (retry_loop_first_Ok _ _ _ fuel _ _ s (r, JNull) s1); [reflexivity |].
    rewrite get_resource_unfold. cbn [is_None]. rewrite H.
    rewrite (raise_for_status_quiet _ Hs).
    unfold get_next_url_from_response, response_json. rewrite Hb. reflexivity.
Qed.

(** X4. When the callable [pagination_key] raises on the body of an
    accepted response (an exception outside [RequestException], such as
    the [KeyError] of [r['pagination']['next']]), the exception leaves
    [paginated_get] after this one attempt and the page is not yielded,
    on the first page and on any later one. *)
Theorem exception_of_the_callable_loses_the_page
        url query timeout_seconds retry_on f pages fuel next_url s r s1 obj e :
  authenticated_session_get (if is_None next_url then url else next_url)
                            (if is_None next_url then query else None) s
  = (Ok r, s1) ->
  ~ 400 <= status_code r < 600 ->
  body r = Some obj ->
  f obj = Raise e ->
  is_RequestException e = false ->
  consume url query timeout_seconds retry_on (KeyCallable f) (S pages) (S fuel)
          (if is_None next_url then Created else Suspended next_url) s
  = Some ([], Some e, s1)
  /\ GET_count s1 = S (GET_count s).
Proof.
  intros H Hs Hb Hf He. split.
  - apply (locator_failure_loses_the_page url query timeout_seconds retry_on
             (KeyCallable f) pages fuel next_url s r s1 e H Hs); [| exact He].
    unfold get_next_url_from_response, response_json. rewrite Hb. exact Hf.
  - eapply GET_count_authenticated_session_get_Ok. exact H.
Qed.

(** ** More on the token *)

Ltac failed_refresh H :=
  repeat match type of H with
         | context [match ?x with _ => _ end] => destruct x eqn:?; cbn [fst snd] in H
         end;
  inversion H; subst; clear H.

(** X5. A call of [ensure_oauth_access_token] that raises was a refresh:
    it has sent exactly the client-credentials request, and it leaves the
    expiry and the configuration of the client as they were (only the
    session credential may already be replaced, when [expires_in] is what
    was wrong). So the token still counts as missing or expired and the
    next call posts again. *)
Theorem failed_refresh_leaves_the_token_expired (self : EdxApiClient) (w : World) e self' w' :
  ensure_oauth_access_token (self, w) = (Raise e, (self', w')) ->
  token_missing_or_expired (_expires_at self) (clock w) = true
  /\ sent w' = token_request self :: sent w
  /\ _expires_at self' = _expires_at self
  /\ client_id self' = client_id self
  /\ client_secret self' = client_secret self
  /\ auth_url self' = auth_url self
  /\ token_type self' = token_type self
  /\ (0 <= elapsed (server (sent w) (token_request self)) ->
      token_missing_or_expired (_expires_at self') (clock w') = true).
Proof.
  intros H.
  destruct (token_missing_or_expired (_expires_at self) (clock w)) eqn:Hm.
  2:{ rewrite (ensure_fresh _ _ Hm) in H. discriminate H. }
  split; [reflexivity |].
  pose proof (ensure_stale_world _ _ Hm) as Hw. rewrite H in Hw. cbn [snd] in Hw.
  assert (Hself : _expires_at self' = _expires_at self
                  /\ client_id self' = client_id self
                  /\ client_secret self' = client_secret self
                  /\ auth_url self' = auth_url self
                  /\ token_type self' = token_type self).
  { rewrite (ensure_stale _ _ Hm) in H.
    unfold bind, send, lift, put_self in H. cbn [fst snd] in H.
    destruct (outcome (server (sent w) (token_request self)));
      [inversion H; subst; repeat split |].
    failed_refresh H; repeat split. }
  destruct Hself as [He [Hi [Hs [Hu Ht]]]].
  subst w'. cbn [sent clock].
  repeat (split; [assumption || reflexivity |]).
  intros Hpos. rewrite He.
  unfold token_missing_or_expired in *.
  destruct (_expires_at self) as [t |]; [| reflexivity].
  apply Z.leb_le in Hm. apply Z.leb_le. lia.
Qed.

(** X6. When the token endpoint's answer is a JSON object without
    [access_token], [get] raises [KeyError] for that key: the
    client-credentials request is the only request sent, no GET goes out,
    nothing is retried and the client is unchanged. *)
Theorem token_answer_without_access_token_is_fatal
        url query timeout_seconds retry_on fuel (self : EdxApiClient) (w : World)
        response fields :
  token_missing_or_expired (_expires_at self) (clock w) = true ->
  outcome (server (sent w) (token_request self)) = inr response ->
  body response = Some (JObj fields) ->
  assoc "access_token" fields = None ->
  exists w',
    get url query timeout_seconds retry_on (S fuel) (self, w)
    = Some (Raise (KeyError "access_token"), (self, w'))
    /\ sent w' = token_request self :: sent w
    /\ GET_count (self, w') = GET_count (self, w).
Proof.
  intros Hm Hr Hb Ha.
  exists {| clock := clock w + elapsed (server (sent w) (token_request self));
            sent := token_request self :: sent w;
            draws := draws w |}.
  split; [| split; reflexivity].
  assert (He : ensure_oauth_access_token (self, w)
               = (Raise (KeyError "access_token"),
                  (self,
                   {| clock := clock w + elapsed (server (sent w) (token_request self));
                      sent := token_request self :: sent w;
                      draws := draws w |}))).
  { rewrite (ensure_stale _ _ Hm).
    unfold bind, send, lift, response_json. cbn [fst snd].
    rewrite Hr, Hb. cbn [py_getitem]. rewrite Ha. reflexivity. }
  unfold get. cbn [paginated_get_next]. unfold fetch_and_yield.
  unfold get_resource_with_retry, on_exception.
  rewrite (retry_loop_first_giveup _ _ _ fuel _ _ (self, w) (KeyError "access_token")
             (self,
              {| clock := clock w + elapsed (server (sent w) (token_request self));
                 sent := token_request self :: sent w;
                 draws := draws w |})).
  - reflexivity.
  - rewrite get_resource_unfold, authenticated_session_get_unfold, He. reflexivity.
  - left. reflexivity.
Qed.

(** X7. The header follows the token endpoint, not the client: when the
    answer of a refresh names a [token_type] (and its [expires_in] gives
    an expiry that is a datetime, so that the refresh succeeds), the GET
    that follows carries that type before the access token, while the
    client-credentials request carried the type the client prefers. *)
Theorem token_type_of_the_answer_overrides_the_preference
        u q (self : EdxApiClient) (w : World) response content access_token ttype n :
  token_missing_or_expired (_expires_at self) (clock w) = true ->
  outcome (server (sent w) (token_request self)) = inr response ->
  body response = Some content ->
  py_getitem content "access_token" = Ok (JStr access_token) ->
  py_getitem content "token_type" = Ok (JStr ttype) ->
  py_getitem content "expires_in" = Ok (JNum n) ->
  expiry_in_range (clock w) n ->
  sent (snd (snd (authenticated_session_get u q (self, w))))
  = {| method := GET; target := u; params := q; data := [];
       authorization := Some (ttype ++ " " ++ access_token)%string |}
      :: token_request self :: sent w
  /\ assoc "token_type" (data (token_request self)) = Some (token_type self).
Proof.
  intros Hm Hr Hb Ha Ht He Hrange. split; [| reflexivity].
  destruct (expiry_in_range_Ok _ _ Hrange) as [Hdelta Hsum].
  destruct (ensure_stale_Ok self w response content (JStr access_token) (JNum n)
                            (n * second) (clock w + n * second)
                            Hm Hr Hb Ha He Hdelta Hsum)
    as [ttype' [Ht' E]].
  assert (ttype' = JStr ttype).
  { destruct content; try discriminate Ha. simpl in Ht, Ht'.
    destruct (assoc "token_type" fields); [congruence | discriminate Ht]. }
  subst ttype'.
  rewrite authenticated_session_get_unfold, E. cbn [fst snd session_auth].
  unfold session_get. rewrite send_state. reflexivity.
Qed.

Lemma expiry_out_of_range now n :
  ~ -999999999 <= n / 86400 <= 999999999
  \/ (n <> 0 /\ ~ 0 <= now + n * second <= datetime_max) ->
  timedelta_seconds (JNum n) = Raise OverflowError
  \/ (exists delta, timedelta_seconds (JNum n) = Ok delta
                    /\ datetime_add now delta = Raise OverflowError).
Proof.
  intros H. unfold timedelta_seconds.
  destruct ((-999999999 <=? n / 86400) && (n / 86400 <=? 999999999)) eqn:Hd;
    [| left; reflexivity].
  right. exists (n * second). split; [reflexivity |].
  apply andb_true_iff in Hd. destruct Hd as [Hd1 Hd2].
  apply Z.leb_le in Hd1. apply Z.leb_le in Hd2.
  destruct H as [H | [Hn H]]; [exfalso; apply H; lia |].
  unfold datetime_add.
  assert (Hz : (n * second =? 0) = false)
    by (apply Z.eqb_neq; unfold second; lia).
  rewrite Hz. cbn [orb].
  destruct ((0 <=? now + n * second) && (now + n * second <=? datetime_max)) eqn:Hs;
    [| reflexivity].
  apply andb_true_iff in Hs. destruct Hs as [Hs1 Hs2].
  apply Z.leb_le in Hs1. apply Z.leb_le in Hs2. exfalso. apply H. lia.
Qed.

(** X8. The lifetime of a token is counted from the time read before the
    client-credentials request. When [now + expires_in] is a datetime the
    refresh succeeds, and right after it the token is already expired
    exactly when the request took [expires_in] seconds or longer. When
    [expires_in] is more than a [timedelta] holds, or [now + expires_in]
    is past [datetime.max] or before [datetime.min], the refresh raises
    [OverflowError] and the expiry stays as it was. *)
Theorem token_lifetime_starts_before_the_request
        (self : EdxApiClient) (w : World) response content access_token n :
  token_missing_or_expired (_expires_at self) (clock w) = true ->
  outcome (server (sent w) (token_request self)) = inr response ->
  body response = Some content ->
  py_getitem content "access_token" = Ok access_token ->
  py_getitem content "expires_in" = Ok (JNum n) ->
  (expiry_in_range (clock w) n ->
   fst (ensure_oauth_access_token (self, w)) = Ok tt
   /\ token_missing_or_expired
        (_expires_at (fst (snd (ensure_oauth_access_token (self, w)))))
        (clock (snd (snd (ensure_oauth_access_token (self, w)))))
      = (n * second <=? elapsed (server (sent w) (token_request self))))
  /\ (~ -999999999 <= n / 86400 <= 999999999
      \/ (n <> 0 /\ ~ 0 <= clock w + n * second <= datetime_max) ->
      fst (ensure_oauth_access_token (self, w)) = Raise OverflowError
      /\ _expires_at (fst (snd (ensure_oauth_access_token (self, w))))
         = _expires_at self).
Proof.
  intros Hm Hr Hb Ha He. split.
  - intros Hrange.
    destruct (expiry_in_range_Ok _ _ Hrange) as [Hdelta Hsum].
    destruct (ensure_stale_Ok self w response content access_token (JNum n)
                              (n * second) (clock w + n * second)
                              Hm Hr Hb Ha He Hdelta Hsum)
      as [ttype [_ E]].
    rewrite E. cbn [fst snd _expires_at clock token_missing_or_expired].
    split; [reflexivity |].
    destruct (Z.leb_spec (n * second) (elapsed (server (sent w) (token_request self))));
      [apply Z.leb_le | apply Z.leb_gt]; lia.
  - intros Hout.
    destruct (ensure_stale_expiry_error self w response content access_token
                                        (JNum n) OverflowError Hm Hr Hb Ha He
                                        (expiry_out_of_range _ _ Hout))
      as [ttype [_ E]].
    rewrite E. split; reflexivity.
Qed.

Lemma ensure_keeps_credential s :
  expiry_has_credential (fst s) ->
  expiry_has_credential (fst (snd (ensure_oauth_access_token s)))
  /\ (fst (ensure_oauth_access_token s) = Ok tt ->
      session_auth (fst (snd (ensure_oauth_access_token s))) <> None).
Proof.
  destruct s as [self w]. cbn [fst]. intros Hi.
  destruct (token_missing_or_expired (_expires_at self) (clock w)) eqn:Hm.
  - rewrite (ensure_stale _ _ Hm).
    unfold bind, send, lift, put_self. cbn [fst snd].
    destruct (outcome (server (sent w) (token_request self)));
      [split; [exact Hi | discriminate] |].
    step_cases;
      (split;
       [ try exact Hi; unfold expiry_has_credential; cbn; intros _; discriminate
       | try discriminate; intros _; cbn; discriminate ]).
  - rewrite (ensure_fresh _ _ Hm). cbn [fst snd]. split; [exact Hi |].
    intros _. apply Hi. unfold token_missing_or_expired in Hm.
    destruct (_expires_at self); [discriminate | discriminate Hm].
Qed.

Lemma get_resource_authenticated url query key next_url s :
  expiry_has_credential (fst s) ->
  expiry_has_credential (fst (snd (get_resource url query key next_url s)))
  /\ adds authenticated s (snd (get_resource url query key next_url s)).
Proof.
  intros Hi. rewrite get_resource_state, authenticated_session_get_unfold.
  destruct (ensure_keeps_credential s Hi) as [Hk Hc].
  assert (Ha : adds authenticated s (snd (ensure_oauth_access_token s))).
  { eapply adds_weaken; [| apply ensure_self_unchanged_world].
    intros q Hq Hg. simpl in Hq. congruence. }
  destruct (ensure_oauth_access_token s) as [[[] | e] s1]; cbn [fst snd] in *.
  - unfold session_get. rewrite send_state. cbn [fst]. split; [exact Hk |].
    eapply adds_trans; [exact Ha |].
    rewrite <- (send_state
                  {| method := GET;
                     target := if is_None next_url then url else next_url;
                     params := if is_None next_url then query else None;
                     data := [];
                     authorization := option_map SuppliedAuth_call
                                                 (session_auth (fst s1)) |} s1).
    apply send_adds. intros _. cbn [authorization].
    specialize (Hc eq_refl). destruct (session_auth (fst s1)); [discriminate | congruence].
  - split; assumption.
Qed.

(** X9. A client that has a credential whenever it has an expiry, as a
    new client does, never sends a GET without an [Authorization] header:
    this holds for every GET of [paginated_get] and of [get], retries and
    later pages included, and the client keeps the property. *)
Theorem every_GET_carries_an_Authorization_header
        url query timeout_seconds retry_on key s :
  expiry_has_credential (fst s) ->
  (forall pages fuel rs e s',
      paginated_get url query timeout_seconds retry_on key pages fuel s
      = Some (rs, e, s') ->
      expiry_has_credential (fst s') /\ adds authenticated s s')
  /\ (forall fuel r s',
         get url query timeout_seconds retry_on fuel s = Some (r, s') ->
         expiry_has_credential (fst s') /\ adds authenticated s s')
  /\ (forall auth_url client_id client_secret token_type,
         expiry_has_credential
           (new_client auth_url client_id client_secret token_type)).
Proof.
  intros Hi. split; [| split].
  - intros pages fuel rs e s' H. unfold paginated_get in H.
    eapply (consume_adds expiry_has_credential authenticated); [| exact Hi | exact H].
    intros next_url s0 Hs0. apply get_resource_authenticated. exact Hs0.
  - intros fuel r s' H. unfold get in H.
    destruct (paginated_get_next url query timeout_seconds retry_on KeyOther fuel
                                 Created s)
      as [[[x g1] s1] |] eqn:E; [| discriminate].
    assert (s1 = s') by (destruct x; inversion H; reflexivity). subst s1.
    eapply (paginated_get_next_adds expiry_has_credential authenticated);
      [| exact Hi | exact E].
    intros next_url s0 Hs0. apply get_resource_authenticated. exact Hs0.
  - intros a c cs t Hne. exfalso. apply Hne. reflexivity.
Qed.

(** ** What is yielded *)

Lemma raise_for_status_Ok_inv r :
  raise_for_status r = Ok tt -> ~ 400 <= status_code r < 600.
Proof.
  unfold raise_for_status. intros H [H1 H2].
  apply Z.leb_le in H1. apply Z.ltb_lt in H2. rewrite H1, H2 in H. discriminate H.
Qed.

Lemma paginated_get_next_Yield_acceptable
      url query timeout_seconds retry_on key fuel g s response g' s' :
  paginated_get_next url query timeout_seconds retry_on key fuel g s
  = Some (Yield response, g', s') ->
  acceptable response.
Proof.
  intros H.
  assert (Hy : exists next_url,
             fetch_and_yield url query timeout_seconds retry_on key fuel next_url s
             = Some (Yield response, g', s')).
  { destruct g as [| next_url |]; simpl in H.
    - exists JNull. exact H.
    - destruct (is_None next_url); [discriminate |]. exists next_url. exact H.
    - discriminate. }
  destruct Hy as [next_url Hy].
  apply fetch_and_yield_Yield_inv in Hy. destruct Hy as [locator [_ [Hr Hn]]].
  split; [apply raise_for_status_Ok_inv; exact Hr |].
  unfold get_next_url_from_response, response_json in Hn.
  destruct (body response); [discriminate | discriminate Hn].
Qed.

(** X10. Every response that [paginated_get] yields, and the one [get]
    returns, passed [raise_for_status] and has a JSON body: no response
    with a status from 400 to 599 and no unparsable page reaches the
    caller, whatever the pagination key and however the traversal ends. *)
Theorem only_acceptable_responses_are_yielded
        url query timeout_seconds retry_on key :
  (forall pages fuel g s rs e s',
      consume url query timeout_seconds retry_on key pages fuel g s
      = Some (rs, e, s') ->
      Forall acceptable rs)
  /\ (forall fuel s response s',
         get url query timeout_seconds retry_on fuel s = Some (Ok response, s') ->
         acceptable response).
Proof.
  split.
  - induction pages as [| pages IH]; intros fuel g s rs e s' H; [discriminate |].
    simpl in H.
    destruct (paginated_get_next url query timeout_seconds retry_on key fuel g s)
      as [[[x g1] s1] |] eqn:E; [| discriminate].
    destruct x as [response | | e1].
    + destruct (consume url query timeout_seconds retry_on key pages fuel g1 s1)
        as [[[rs2 e2] s2] |] eqn:E2; [| discriminate].
      inversion H. subst. constructor.
      * eapply paginated_get_next_Yield_acceptable. exact E.
      * eapply IH. exact E2.
    + inversion H. constructor.
    + inversion H. constructor.
  - intros fuel s response s' H. unfold get in H.
    destruct (paginated_get_next url query timeout_seconds retry_on KeyOther fuel
                                 Created s)
      as [[[x g1] s1] |] eqn:E; [| discriminate].
    destruct x as [response' | | e1]; inversion H. subst.
    eapply paginated_get_next_Yield_acceptable. exact E.
Qed.

(** ** A retry that succeeds *)

(** X11. When the first attempt of a page fetch is answered with a status
    in [retry_on] (an error status) and the deadline is positive, the
    executor waits and tries again; when this second attempt is answered
    with an acceptable response whose locator can be extracted, the fetch
    returns this second response after exactly two GETs. *)
Theorem retry_after_retryable_status_returns_the_second_answer
        url query timeout_seconds retry_on key fuel next_url s r1 s1 r2 s2 locator :
  authenticated_session_get (if is_None next_url then url else next_url)
                            (if is_None next_url then query else None) s
  = (Ok r1, s1) ->
  400 <= status_code r1 < 600 ->
  status_in (status_code r1) retry_on = true ->
  0 < timeout_seconds ->
  authenticated_session_get
    (if is_None next_url then url else next_url)
    (if is_None next_url then query else None)
    (snd ((seconds <- next_wait 0 0 timeout_seconds ;; sleep seconds) s1))
  = (Ok r2, s2) ->
  ~ 400 <= status_code r2 < 600 ->
  get_next_url_from_response key r2 = Ok locator ->
  get_resource_with_retry url query timeout_seconds retry_on key
                          (S (S fuel)) next_url s
  = Some (Ok (r2, locator), s2)
  /\ GET_count s2 = S (S (GET_count s)).
Proof.
  intros H1 Hs1 Hr1 Hpos H2 Hs2 Hl. split.
  - unfold get_resource_with_retry, on_exception.
    remember (S fuel) as fuel1. cbn [retry_loop].
    rewrite (retry_turn_Again _ _ _ _ _ _
               (RequestException HTTPError (Some r1)) s1).
    + rewrite Z.sub_diag. subst fuel1.
      apply retry_loop_first_Ok.
      rewrite get_resource_unfold, H2, (raise_for_status_quiet _ Hs2), Hl.
      reflexivity.
    + rewrite get_resource_unfold, H1, (raise_for_status_error _ Hs1). reflexivity.
    + reflexivity.
    + rewrite should_giveup_status, Hr1. reflexivity.
    + lia.
  - apply GET_count_authenticated_session_get_Ok in H1.
    apply GET_count_authenticated_session_get_Ok in H2.
    rewrite H2. unfold GET_count in *. rewrite backoff_state. cbn [snd sent].
    f_equal. exact H1.
Qed.

End Client.

(** * The scenarios, run *)

(** C4 at work: at the very time of expiry the token is refreshed and the
    new credential expires an hour later; before that time nothing is
    sent. *)
Lemma token_refreshed_at_expiry_and_not_before :
  sent (snd (snd (ensure_oauth_access_token (always 200)
                                            (cached_client, world_at_expiry))))
  = [token_request cached_client]
  /\ (exists ttype,
         fst (snd (ensure_oauth_access_token (always 200)
                                             (cached_client, world_at_expiry)))
         = {| _expires_at := Some (clock world_at_expiry + 3600 * second);
              session_auth := Some (mkSuppliedAuth (JStr "abc") ttype);
              client_id := client_id cached_client;
              client_secret := client_secret cached_client;
              auth_url := auth_url cached_client;
              token_type := token_type cached_client |})
  /\ ensure_oauth_access_token (always 200) (cached_client, fresh_world)
     = (Ok tt, (cached_client, fresh_world)).
Proof.
  destruct (ensure_oauth_access_token_refresh_iff_missing_or_expired
              (always 200) cached_client world_at_expiry) as [Hrefresh _].
  destruct (ensure_oauth_access_token_refresh_iff_missing_or_expired
              (always 200) cached_client fresh_world) as [_ Hkeep].
  destruct Hrefresh as [Hsent Hcred].
  { right. exists (3600 * second). split; [reflexivity | simpl; lia]. }
  split; [exact Hsent |]. split.
  - destruct (Hcred (mkResponse 200 (Some token_body)) token_body (JStr "abc") 3600
                    eq_refl eq_refl eq_refl eq_refl) as [ttype [_ [_ E]]].
    + apply expiry_in_range_check. reflexivity.
    + exists ttype. exact E.
  - apply (Hkeep (3600 * second)); [reflexivity | reflexivity].
Defined.

(** C4 fails as stated: the cached token has expired and the endpoint
    answers with an [expires_in] of 10^12 seconds. The request is posted,
    but [now + expires_in] is past [datetime.max]: the call raises
    [OverflowError] and the cached expiry is not replaced. *)
Lemma expiry_past_datetime_max_is_not_stored :
  token_missing_or_expired (_expires_at cached_client) (clock world_at_expiry) = true
  /\ py_getitem eternal_body "expires_in" = Ok (JNum 1000000000000)
  /\ fst (ensure_oauth_access_token eternal (cached_client, world_at_expiry))
     = Raise OverflowError
  /\ sent (snd (snd (ensure_oauth_access_token eternal
                                               (cached_client, world_at_expiry))))
     = [token_request cached_client]
  /\ _expires_at (fst (snd (ensure_oauth_access_token
                              eternal (cached_client, world_at_expiry))))
     = Some (3600 * second)
  /\ Some (3600 * second)
     <> Some (clock world_at_expiry + 1000000000000 * second).
Proof.
  split; [reflexivity |]. split; [reflexivity |]. split; [reflexivity |].
  split; [reflexivity |]. split; [reflexivity |]. discriminate.
Qed.

(** C1 fails as stated: a connection error, which carries no response, is
    raised after a single GET, with no wait taken and the budget of 7200
    seconds hardly touched. *)
Lemma connection_error_is_raised_after_one_attempt :
  exists s',
    get unreachable half no_repr page1 None DEFAULT_TIMEOUT_SECONDS
        DEFAULT_RETRY_STATUS_CODES 10 fresh
    = Some (Raise (RequestException ConnectionError None), s')
    /\ GET_count s' = 1%nat
    /\ draws (snd s') = 0%nat
    /\ clock (snd s') < DEFAULT_TIMEOUT_SECONDS.
Proof.
  eexists. split; [vm_compute; reflexivity |].
  split; [reflexivity |]. split; reflexivity.
Qed.

(** The amended C1 at work on the same connection error. *)
Lemma error_without_response_is_not_retried_witness :
  get_resource_with_retry unreachable half no_repr page1 None
                          DEFAULT_TIMEOUT_SECONDS DEFAULT_RETRY_STATUS_CODES
                          (KeyStr "next") 1 JNull fresh
  = Some (Raise (RequestException ConnectionError None),
          snd (get_resource unreachable no_repr page1 None (KeyStr "next")
                            JNull fresh)).
Proof.
  apply (error_without_response_is_not_retried
           unreachable half no_repr page1 None DEFAULT_TIMEOUT_SECONDS
           DEFAULT_RETRY_STATUS_CODES (KeyStr "next") 0 JNull fresh
           (RequestException ConnectionError None)
           (snd (get_resource unreachable no_repr page1 None (KeyStr "next")
                              JNull fresh))).
  - reflexivity.
  - reflexivity.
Defined.

(** C6 fails as stated: 300 is neither 2xx nor in the retry set, and the
    response is returned, not raised. *)
Lemma status_300_is_returned_not_raised :
  status_in 300 DEFAULT_RETRY_STATUS_CODES = false
  /\ ~ 200 <= 300 < 300
  /\ exists s',
      get (always 300) half no_repr page1 None DEFAULT_TIMEOUT_SECONDS
          DEFAULT_RETRY_STATUS_CODES 10 fresh
      = Some (Ok (mkResponse 300 (Some has_next)), s')
      /\ GET_count s' = 1%nat.
Proof.
  split; [reflexivity |]. split; [lia |].
  eexists. split; [vm_compute; reflexivity | reflexivity].
Qed.

(** The amended C6 at work on scenario D: 404. *)
Lemma status_404_is_raised_after_one_attempt :
  exists s1,
    get_resource_with_retry (always 404) half no_repr page1 None
                            DEFAULT_TIMEOUT_SECONDS DEFAULT_RETRY_STATUS_CODES
                            (KeyStr "next") 1 JNull fresh
    = Some (Raise (RequestException HTTPError (Some (mkResponse 404 (Some has_next)))),
            s1)
    /\ GET_count s1 = 1%nat.
Proof.
  eexists.
  destruct (error_status_outside_retry_on_is_raised_at_once
              (always 404) half no_repr page1 None DEFAULT_TIMEOUT_SECONDS
              DEFAULT_RETRY_STATUS_CODES (KeyStr "next") 0 JNull fresh
              (mkResponse 404 (Some has_next))
              (snd (authenticated_session_get (always 404) no_repr page1 None fresh)))
    as [Hraise [Hcount _]].
  - reflexivity.
  - simpl. lia.
  - reflexivity.
  - split; [exact Hraise | exact Hcount].
Defined.

(** C10 at work: a 200 whose body is not JSON. *)
Lemma garbled_page_raises :
  exists s1,
    paginated_get garbled half no_repr page1 None DEFAULT_TIMEOUT_SECONDS
                  DEFAULT_RETRY_STATUS_CODES (KeyStr "next") 1 1 fresh
    = Some ([], Some (RequestException JSONDecodeError None), s1)
    /\ get garbled half no_repr page1 None DEFAULT_TIMEOUT_SECONDS
           DEFAULT_RETRY_STATUS_CODES 1 fresh
       = Some (Raise (RequestException JSONDecodeError None), s1).
Proof.
  eexists.
  apply (successful_response_with_invalid_JSON_raises
           garbled half no_repr page1 None DEFAULT_TIMEOUT_SECONDS
           DEFAULT_RETRY_STATUS_CODES (KeyStr "next") 0 0 fresh
           (mkResponse 200 None)
           (snd (authenticated_session_get garbled no_repr page1 None fresh))).
  - reflexivity.
  - simpl. lia.
  - reflexivity.
Defined.

(** Scenario A, through the two pages of scenario C: each GET carries
    [Authorization: jwt abc]. *)
Lemma two_pages_requests_carry_jwt_abc :
  exists rs e s',
    paginated_get two_pages half no_repr page1 None DEFAULT_TIMEOUT_SECONDS
                  DEFAULT_RETRY_STATUS_CODES (KeyStr "next") 5 5 fresh
    = Some (rs, e, s')
    /\ adds (carries "jwt abc") fresh s'
    /\ map authorization (filter is_GET (sent (snd s')))
       = [Some "jwt abc"; Some "jwt abc"].
Proof.
  do 3 eexists. split; [vm_compute; reflexivity |]. split.
  - destruct (scenario_A_requests_carry_jwt_abc
                two_pages half no_repr page1 None DEFAULT_TIMEOUT_SECONDS
                DEFAULT_RETRY_STATUS_CODES (KeyStr "next")
                (JStr "https://auth/token") (JStr "id") (JStr "secret") fresh_world)
      as [_ [_ [Hpages _]]].
    + intros history q Hq. unfold two_pages, with_token_endpoint. rewrite Hq.
      exists (mkResponse 200 (Some token_body)). split; reflexivity.
    + eapply (Hpages 5%nat 5%nat). vm_compute. reflexivity.
  - vm_compute. reflexivity.
Defined.

(** C7 fails as stated: after a 503, [get] issues a second GET. *)
Lemma get_repeats_the_GET_after_a_503 :
  exists s',
    get (flaky 1) half no_repr page1 None DEFAULT_TIMEOUT_SECONDS
        DEFAULT_RETRY_STATUS_CODES 10 fresh
    = Some (Ok (mkResponse 200 (Some has_next)), s')
    /\ GET_count s' = 2%nat.
Proof. eexists. split; [vm_compute; reflexivity | reflexivity]. Qed.

(** The amended C7 at work: the first answer has a value under [next],
    and [get] returns it after one GET. *)
Lemma get_returns_the_first_page_despite_next :
  assoc "next" [("results", JArr [JNum 1]); ("next", JStr "https://x/page2")]
  = Some (JStr "https://x/page2")
  /\ exists s1,
      get (always 200) half no_repr page1 None DEFAULT_TIMEOUT_SECONDS
          DEFAULT_RETRY_STATUS_CODES 1 fresh
      = Some (Ok (mkResponse 200 (Some has_next)), s1)
      /\ GET_count s1 = 1%nat.
Proof.
  split; [reflexivity |]. eexists.
  destruct (get_fetches_the_first_page_only
              (always 200) half no_repr page1 None DEFAULT_TIMEOUT_SECONDS
              DEFAULT_RETRY_STATUS_CODES) as [_ [_ Hone]].
  apply (Hone 0%nat fresh (mkResponse 200 (Some has_next))
              (snd (authenticated_session_get (always 200) no_repr page1 None fresh))
              has_next).
  - reflexivity.
  - simpl. lia.
  - reflexivity.
Defined.

(** C2 fails as stated: the callable returns the empty string, which is
    falsy, and the traversal goes on to a second GET, for the URL [""],
    which [requests] refuses; the sequence ends with that exception. *)
Lemma empty_string_locator_is_fetched :
  truthy (JStr "") = false
  /\ cursor_of empty_cursor = Ok (JStr "")
  /\ exists s',
      paginated_get one_page_empty_cursor half no_repr page1 None
                    DEFAULT_TIMEOUT_SECONDS DEFAULT_RETRY_STATUS_CODES
                    (KeyCallable cursor_of) 5 5 fresh
      = Some ([mkResponse 200 (Some empty_cursor)],
              Some (RequestException MissingSchema None), s')
      /\ map target (filter is_GET (sent (snd s'))) = [JStr ""; page1].
Proof.
  split; [reflexivity |]. split; [reflexivity |].
  eexists. split; [vm_compute; reflexivity | reflexivity].
Qed.

(** The amended C2 at work on the same page: the locator the generator
    keeps is what the callable returned on the body. *)
Lemma callable_key_witness :
  exists obj locator,
    body (mkResponse 200 (Some empty_cursor)) = Some obj
    /\ cursor_of obj = Ok locator
    /\ locator = JStr "".
Proof.
  destruct (callable_key_ends_the_sequence_on_None_only
              one_page_empty_cursor half no_repr page1 None DEFAULT_TIMEOUT_SECONDS
              DEFAULT_RETRY_STATUS_CODES cursor_of 5 Created fresh
              (mkResponse 200 (Some empty_cursor)) (Suspended (JStr ""))
              (snd (get_resource one_page_empty_cursor no_repr page1 None
                                 (KeyCallable cursor_of) JNull fresh)))
    as [obj [locator [Hb [Hf [Hg _]]]]].
  - vm_compute. reflexivity.
  - exists obj, locator. split; [exact Hb |]. split; [exact Hf |].
    inversion Hg. reflexivity.
Defined.

(** Scenario C: two pages are yielded, two GETs are issued, and the
    sequence ends. *)
Lemma scenario_C_yields_two_pages :
  exists s',
    paginated_get two_pages half no_repr page1 None DEFAULT_TIMEOUT_SECONDS
                  DEFAULT_RETRY_STATUS_CODES (KeyStr "next") 3 5 fresh
    = Some ([mkResponse 200 (Some has_next); mkResponse 200 (Some last_results)],
            None, s')
    /\ GET_count s' = 2%nat.
Proof.
  eexists. split.
  - apply (paginated_get_yields_exactly_the_pages_before_absent_locator
             two_pages half no_repr page1 None DEFAULT_TIMEOUT_SECONDS
             DEFAULT_RETRY_STATUS_CODES (KeyStr "next") 5 2 fresh
             [mkResponse 200 (Some has_next); mkResponse 200 (Some last_results)]
             _ 0).
    eapply more_pages.
    + vm_compute. reflexivity.
    + discriminate.
    + eapply last_page. vm_compute. reflexivity.
  - vm_compute. reflexivity.
Defined.


(** C3 at work. With a deadline of 3 seconds and a server that always
    answers 503, the page fetch gives up in an attempt begun 3 seconds or
    more after its call. With a deadline of 5 seconds and two pages that
    each need two retries, the traversal takes 9.1 seconds and succeeds:
    no page exceeded its own window. *)
Lemma deadline_is_per_page_witness :
  (exists e s' sk,
      get_resource_with_retry (always 503) half no_repr page1 None (3 * second)
                              DEFAULT_RETRY_STATUS_CODES (KeyStr "next")
                              50 JNull fresh
      = Some (Raise e, s')
      /\ get_resource (always 503) no_repr page1 None (KeyStr "next") JNull sk
         = (Raise e, s')
      /\ 3 * second <= clock (snd sk) - clock (snd fresh))
  /\ (exists s',
         paginated_get slow_two_pages half no_repr page1 None (5 * second)
                       DEFAULT_RETRY_STATUS_CODES (KeyStr "next") 5 50 fresh
         = Some ([mkResponse 200 (Some has_next); mkResponse 200 (Some last_results)],
                 None, s')
         /\ clock (snd s') = 9100000
         /\ 5 * second < clock (snd s')).
Proof.
  split.
  - destruct (retry_deadline_is_counted_per_page_fetch
                (always 503) half no_repr page1 None (3 * second)
                DEFAULT_RETRY_STATUS_CODES (KeyStr "next") JNull)
      as [_ [Hlate _]].
    pose (run := get_resource_with_retry
                   (always 503) half no_repr page1 None (3 * second)
                   DEFAULT_RETRY_STATUS_CODES (KeyStr "next") 50 JNull fresh).
    assert (Hrun : run
                   = Some (Raise (RequestException HTTPError
                                    (Some (mkResponse 503 (Some has_next)))),
                           match run with
                           | Some (_, s) => s
                           | None => fresh
                           end))
      by (vm_compute; reflexivity).
    destruct (Hlate _ _ _ _ Hrun eq_refl eq_refl) as [sk [Hsk Hd]].
    do 2 eexists. exists sk. split; [exact Hrun |]. split; [exact Hsk | exact Hd].
  - eexists. split; [vm_compute; reflexivity |]. split; reflexivity.
Defined.



(** * Further scenarios *)

(** X1 at work on scenario C: the GET of the first step is for the first
    page, and the GET of the second step is for the locator, without
    query. *)
Lemma second_page_is_requested_at_the_locator :
  exists x g' s' x2 g2 s2,
    paginated_get_next two_pages half no_repr page1 (Some [("page_size", "10")])
                       DEFAULT_TIMEOUT_SECONDS DEFAULT_RETRY_STATUS_CODES
                       (KeyStr "next") 5 Created fresh
    = Some (x, g', s')
    /\ adds (aims_at page1 (Some [("page_size", "10")])) fresh s'
    /\ paginated_get_next two_pages half no_repr page1 (Some [("page_size", "10")])
                          DEFAULT_TIMEOUT_SECONDS DEFAULT_RETRY_STATUS_CODES
                          (KeyStr "next") 5 (Suspended (JStr "https://x/page2")) s'
       = Some (x2, g2, s2)
    /\ adds (aims_at (JStr "https://x/page2") None) s' s2.
Proof.
  do 6 eexists.
  split; [vm_compute; reflexivity |]. split.
  - eapply (later_pages_are_requested_at_the_locator_without_params
              two_pages half no_repr page1 (Some [("page_size", "10")])
              DEFAULT_TIMEOUT_SECONDS DEFAULT_RETRY_STATUS_CODES (KeyStr "next")
              5 Created fresh).
    vm_compute. reflexivity.
  - split; [vm_compute; reflexivity |].
    eapply (later_pages_are_requested_at_the_locator_without_params
              two_pages half no_repr page1 (Some [("page_size", "10")])
              DEFAULT_TIMEOUT_SECONDS DEFAULT_RETRY_STATUS_CODES (KeyStr "next")
              5 (Suspended (JStr "https://x/page2"))).
    vm_compute. reflexivity.
Defined.

(** X2 at work on the first page of scenario C. *)
Lemma first_page_of_scenario_C_gives_its_next :
  exists fields,
    body (mkResponse 200 (Some has_next)) = Some (JObj fields)
    /\ assoc "next" fields = Some (JStr "https://x/page2").
Proof.
  destruct (string_key_reads_the_field_of_the_body
              two_pages half no_repr page1 None DEFAULT_TIMEOUT_SECONDS
              DEFAULT_RETRY_STATUS_CODES "next" 5 Created fresh
              (mkResponse 200 (Some has_next)) (Suspended (JStr "https://x/page2"))
              (snd (get_resource two_pages no_repr page1 None (KeyStr "next")
                                 JNull fresh)))
    as [fields [Hb [Hg _]]].
  - vm_compute. reflexivity.
  - exists fields. split; [exact Hb |].
    inversion Hb. reflexivity.
Defined.

(** X3 at work: a page that is a JSON list. *)
Lemma list_body_raises_AttributeError_under_a_string_key :
  exists s1,
    paginated_get listing half no_repr page1 None DEFAULT_TIMEOUT_SECONDS
                  DEFAULT_RETRY_STATUS_CODES (KeyStr "next") 1 1 fresh
    = Some ([], Some AttributeError, s1)
    /\ get listing half no_repr page1 None DEFAULT_TIMEOUT_SECONDS
           DEFAULT_RETRY_STATUS_CODES 1 fresh
       = Some (Ok (mkResponse 200 (Some (JArr [JNum 1; JNum 2]))), s1).
Proof.
  eexists.
  apply (string_key_on_a_body_that_is_no_object_raises
           listing half no_repr page1 None DEFAULT_TIMEOUT_SECONDS
           DEFAULT_RETRY_STATUS_CODES "next" 0 0 fresh
           (mkResponse 200 (Some (JArr [JNum 1; JNum 2])))
           (snd (authenticated_session_get listing no_repr page1 None fresh))
           (JArr [JNum 1; JNum 2])).
  - reflexivity.
  - simpl. lia.
  - reflexivity.
  - reflexivity.
Defined.

(** X4 at work: the callable of the docstring on a body without
    [pagination]. *)
Lemma missing_pagination_field_raises_KeyError :
  exists s1,
    consume (always 200) half no_repr page1 None DEFAULT_TIMEOUT_SECONDS
            DEFAULT_RETRY_STATUS_CODES (KeyCallable pagination_next) 1 1
            Created fresh
    = Some ([], Some (KeyError "pagination"), s1)
    /\ GET_count s1 = 1%nat.
Proof.
  eexists.
  apply (exception_of_the_callable_loses_the_page
           (always 200) half no_repr page1 None DEFAULT_TIMEOUT_SECONDS
           DEFAULT_RETRY_STATUS_CODES pagination_next 0 0 JNull fresh
           (mkResponse 200 (Some has_next))
           (snd (authenticated_session_get (always 200) no_repr page1 None fresh))
           has_next (KeyError "pagination")).
  - reflexivity.
  - simpl. lia.
  - reflexivity.
  - reflexivity.
  - reflexivity.
Defined.

(** X5 at work: the token endpoint answers with an error object. *)
Lemma refused_token_leaves_the_client_without_expiry :
  exists self' w',
    ensure_oauth_access_token token_refused (fresh_client, fresh_world)
    = (Raise (KeyError "access_token"), (self', w'))
    /\ sent w' = [token_request fresh_client]
    /\ _expires_at self' = None
    /\ token_missing_or_expired (_expires_at self') (clock w') = true.
Proof.
  do 2 eexists.
  assert (Hrun : ensure_oauth_access_token token_refused (fresh_client, fresh_world)
                 = (Raise (KeyError "access_token"),
                    (fresh_client,
                     {| clock := 100000;
                        sent := [token_request fresh_client];
                        draws := 0 |})))
    by reflexivity.
  split; [exact Hrun |].
  destruct (failed_refresh_leaves_the_token_expired token_refused _ _ _ _ _ Hrun)
    as [_ [Hsent [Hexp [_ [_ [_ [_ Hnext]]]]]]].
  split; [exact Hsent |]. split; [exact Hexp |].
  apply Hnext. simpl. lia.
Defined.

(** X6 at work on the same endpoint: [get] sends no GET. *)
Lemma refused_token_stops_get :
  exists w',
    get token_refused half no_repr page1 None DEFAULT_TIMEOUT_SECONDS
        DEFAULT_RETRY_STATUS_CODES 1 (fresh_client, fresh_world)
    = Some (Raise (KeyError "access_token"), (fresh_client, w'))
    /\ sent w' = [token_request fresh_client]
    /\ GET_count (fresh_client, w') = 0%nat.
Proof.
  apply (token_answer_without_access_token_is_fatal
           token_refused half no_repr page1 None DEFAULT_TIMEOUT_SECONDS
           DEFAULT_RETRY_STATUS_CODES 0 fresh_client fresh_world
           (mkResponse 401 (Some (JObj [("error", JStr "invalid_client")])))
           [("error", JStr "invalid_client")]);
    reflexivity.
Defined.

(** X7 at work: the client prefers jwt and the endpoint says Bearer. *)
Lemma bearer_answer_gives_a_Bearer_header :
  map authorization
      (sent (snd (snd (authenticated_session_get bearer_endpoint no_repr page1 None
                                                 (fresh_client, fresh_world)))))
  = [Some "Bearer abc"; None]
  /\ assoc "token_type" (data (token_request fresh_client)) = Some (JStr "jwt").
Proof.
  destruct (token_type_of_the_answer_overrides_the_preference
              bearer_endpoint no_repr page1 None fresh_client fresh_world
              (mkResponse 200 (Some bearer_body)) bearer_body "abc" "Bearer" 3600
              eq_refl eq_refl eq_refl eq_refl eq_refl eq_refl
              (expiry_in_range_check (clock fresh_world) 3600 eq_refl))
    as [Hsent Hform].
  split; [rewrite Hsent; reflexivity | exact Hform].
Defined.

(** X8 at work: a token of 3600 seconds obtained in 100 ms is valid after
    the refresh. *)
Lemma token_of_an_hour_is_valid_after_the_refresh :
  token_missing_or_expired
    (_expires_at (fst (snd (ensure_oauth_access_token (always 200)
                                                      (fresh_client, fresh_world)))))
    (clock (snd (snd (ensure_oauth_access_token (always 200)
                                                (fresh_client, fresh_world)))))
  = false.
Proof.
  destruct (token_lifetime_starts_before_the_request
              (always 200) fresh_client fresh_world
              (mkResponse 200 (Some token_body)) token_body (JStr "abc") 3600
              eq_refl eq_refl eq_refl eq_refl eq_refl)
    as [Hvalid _].
  destruct (Hvalid (expiry_in_range_check (clock fresh_world) 3600 eq_refl))
    as [_ Hexpired].
  rewrite Hexpired. reflexivity.
Defined.

(** X9 at work on scenario C. *)
Lemma two_pages_requests_are_authenticated :
  exists rs e s',
    paginated_get two_pages half no_repr page1 None DEFAULT_TIMEOUT_SECONDS
                  DEFAULT_RETRY_STATUS_CODES (KeyStr "next") 5 5 fresh
    = Some (rs, e, s')
    /\ adds authenticated fresh s'.
Proof.
  do 3 eexists. split; [vm_compute; reflexivity |].
  destruct (every_GET_carries_an_Authorization_header
              two_pages half no_repr page1 None DEFAULT_TIMEOUT_SECONDS
              DEFAULT_RETRY_STATUS_CODES (KeyStr "next") fresh)
    as [Hpages _].
  - intros Hne. exfalso. apply Hne. reflexivity.
  - eapply (Hpages 5%nat 5%nat). vm_compute. reflexivity.
Defined.

(** X10 at work on scenario C. *)
Lemma two_pages_yields_acceptable_responses :
  Forall acceptable
         [mkResponse 200 (Some has_next); mkResponse 200 (Some last_results)].
Proof.
  destruct (only_acceptable_responses_are_yielded
              two_pages half no_repr page1 None DEFAULT_TIMEOUT_SECONDS
              DEFAULT_RETRY_STATUS_CODES (KeyStr "next")) as [Hall _].
  eapply (Hall 5%nat 5%nat Created fresh). vm_compute. reflexivity.
Defined.

(** X11 at work: a 503, then a 200. *)
Lemma one_503_then_200_returns_the_200 :
  exists s2,
    get_resource_with_retry (flaky 1) half no_repr page1 None
                            DEFAULT_TIMEOUT_SECONDS DEFAULT_RETRY_STATUS_CODES
                            (KeyStr "next") 2 JNull fresh
    = Some (Ok (mkResponse 200 (Some has_next), JStr "https://x/page2"), s2)
    /\ GET_count s2 = 2%nat.
Proof.
  eexists.
  apply (retry_after_retryable_status_returns_the_second_answer
           (flaky 1) half no_repr page1 None DEFAULT_TIMEOUT_SECONDS
           DEFAULT_RETRY_STATUS_CODES (KeyStr "next") 0 JNull fresh
           (mkResponse 503 (Some JNull))
           (snd (authenticated_session_get (flaky 1) no_repr page1 None fresh))
           (mkResponse 200 (Some has_next))).
  - reflexivity.
  - simpl. lia.
  - reflexivity.
  - reflexivity.
  - vm_compute. reflexivity.
  - simpl. lia.
  - reflexivity.
Defined.

(** * Properties of prefect_utils.snowflake *)

Import Snowflake.

Lemma length_append (s1 s2 : string) :
  String.length (s1 ++ s2) = (String.length s1 + String.length s2)%nat.
Proof. induction s1 as [| c s1 IH]; simpl; [reflexivity | rewrite IH; reflexivity]. Qed.

Lemma append_assoc (s1 s2 s3 : string) :
  ((s1 ++ s2) ++ s3 = s1 ++ (s2 ++ s3))%string.
Proof. induction s1 as [| c s1 IH]; simpl; [reflexivity | rewrite IH; reflexivity]. Qed.

(** ** The names *)

(** X12. The stage and the pipe of a table are named by the qualified
    table name followed by [_stage] and [_pipe], so the three names of one
    table differ from each other. The names do not separate their parts:
    the stage of a table is also the qualified name of the table called
    with the suffix, and a dot may move between database and schema. *)
Theorem stage_and_pipe_names_extend_the_table_name (database schema table : string) :
  qualified_stage_name database schema table
  = (qualified_table_name database schema table ++ "_stage")%string
  /\ qualified_pipe_name database schema table
     = (qualified_table_name database schema table ++ "_pipe")%string
  /\ qualified_table_name database schema table
     <> qualified_stage_name database schema table
  /\ qualified_table_name database schema table
     <> qualified_pipe_name database schema table
  /\ qualified_stage_name database schema table
     <> qualified_pipe_name database schema table
  /\ qualified_stage_name database schema table
     = qualified_table_name database schema (table ++ "_stage")
  /\ (forall x,
         qualified_table_name (database ++ "." ++ x) schema table
         = qualified_table_name database (x ++ "." ++ schema) table).
Proof.
  assert (Hs : qualified_stage_name database schema table
               = (qualified_table_name database schema table ++ "_stage")%string).
  { unfold qualified_stage_name, qualified_table_name.
    repeat rewrite append_assoc. reflexivity. }
  assert (Hp : qualified_pipe_name database schema table
               = (qualified_table_name database schema table ++ "_pipe")%string).
  { unfold qualified_pipe_name, qualified_table_name.
    repeat rewrite append_assoc. reflexivity. }
  split; [exact Hs |]. split; [exact Hp |].
  split; [| split; [| split; [| split]]].
  - rewrite Hs. intros E. apply (f_equal String.length) in E.
    rewrite length_append in E. simpl in E. lia.
  - rewrite Hp. intros E. apply (f_equal String.length) in E.
    rewrite length_append in E. simpl in E. lia.
  - rewrite Hs, Hp. intros E. apply (f_equal String.length) in E.
    rewrite !length_append in E. simpl in E. lia.
  - reflexivity.
  - intros x. unfold qualified_table_name. repeat rewrite append_assoc. reflexivity.
Qed.

(** ** Connecting *)

Section TaskFacts.

Variable key_bytes : string -> string -> error + string.
Variable database : World -> event -> option error.
Variable fetched : World -> option (list json).

Lemma sf_bind_Ok {A B} (m : SM A) (k : A -> SM B) w a w' :
  m w = (Ok a, w') -> bind m k w = k a w'.
Proof. intros H. unfold bind. rewrite H. reflexivity. Qed.

Lemma sf_bind_Raise {A B} (m : SM A) (k : A -> SM B) w e w' :
  m w = (Raise e, w') -> bind m k w = (Raise e, w').
Proof. intros H. unfold bind. rewrite H. reflexivity. Qed.

(** X13. A call of [create_snowflake_connection] whose credentials lack
    [private_key] or [private_key_passphrase] raises [AttributeError]
    before anything is attempted on the service: no connection is made. *)
Theorem credentials_without_key_or_passphrase_raise_AttributeError
        credentials role keywords parameters w :
  bind_keywords keywords (JBool false) JNull = Ok parameters ->
  assoc "private_key" credentials = None
  \/ assoc "private_key_passphrase" credentials = None ->
  create_snowflake_connection key_bytes database credentials role keywords w
  = (Raise AttributeError, w).
Proof.
  intros Hk Hmissing.
  unfold create_snowflake_connection, bind, lift. rewrite Hk.
  unfold dict_get.
  destruct Hmissing as [Hm | Hm].
  - rewrite Hm. reflexivity.
  - rewrite Hm.
    destruct (assoc "private_key" credentials) as [[] |]; reflexivity.
Qed.

(** X14. What [create_snowflake_connection] does on the service. When it
    returns, it has attempted exactly a connect with the user and account
    of the credentials, then [USE ROLE role], then the statement that sets
    the time zone to UTC, and the connection returned is the new one. When
    it raises, it has attempted at most these three and nothing else: a
    connection it has opened is left open. *)
Theorem create_snowflake_connection_attempts
        credentials role keywords w :
  match create_snowflake_connection key_bytes database credentials role keywords w with
  | (Ok connection, w') =>
      connection = List.length (filter is_Connect w)
      /\ exists pkb autocommit warehouse,
          bind_keywords keywords (JBool false) JNull = Ok (autocommit, warehouse)
          /\ w' = ([Execute connection "ALTER SESSION SET TIMEZONE = 'UTC'";
                   Execute connection ("USE ROLE " ++ role)%string;
                   Connect (dict_get credentials "user")
                           (dict_get credentials "account")
                           pkb autocommit warehouse] ++ w)%list
  | (Raise e, w') =>
      exists new,
        w' = (new ++ w)%list
        /\ (List.length new <= 3)%nat
        /\ Forall (fun ev => match ev with
                             | Connect _ _ _ _ _ | Execute _ _ => True
                             | _ => False
                             end) new
  end.
Proof.
  unfold create_snowflake_connection, bind, lift, load_private_key, connect,
    execute, act, ret.
  destruct (bind_keywords keywords (JBool false) JNull) as [[autocommit warehouse] | e];
    [| exists []; repeat split; [simpl; lia | constructor]].
  cbn [fst snd].
  destruct (encode (dict_get credentials "private_key")) as [key | e];
    [| exists []; repeat split; [simpl; lia | constructor]].
  destruct (encode (dict_get credentials "private_key_passphrase")) as [password | e];
    [| exists []; repeat split; [simpl; lia | constructor]].
  destruct (key_bytes key password) as [e | pkb];
    [exists []; repeat split; [simpl; lia | constructor] |].
  destruct (database w _) as [e |] eqn:Hc;
    [eexists [_]; repeat split; [simpl; lia | repeat constructor] |].
  destruct (database (_ :: w) _) as [e |] eqn:Hu;
    [eexists [_; _]; repeat split; [simpl; lia | repeat constructor] |].
  destruct (database (_ :: _ :: w) _) as [e |] eqn:Ht;
    [eexists [_; _; _]; repeat split; [simpl; lia | repeat constructor] |].
  split; [reflexivity |].
  exists pkb, autocommit, warehouse. split; reflexivity.
Qed.

(** ** The tasks *)

Variable sf_credentials : list (string * json).
Variables sf_database sf_schema sf_table sf_role : string.
Variable sf_warehouse : json.
Variables sf_storage_integration s3_url date pattern sf_file_format_type : string.

Lemma act_world e w : snd (act database e w) = e :: w.
Proof. reflexivity. Qed.

Lemma act_Ok_inv e w u w' :
  act database e w = (Ok u, w') -> w' = e :: w /\ database w e = None.
Proof.
  unfold act. destruct (database w e); intros H; inversion H. auto.
Qed.

Lemma sf_bind_Ok_inv {A B} (m : SM A) (k : A -> SM B) w b w' :
  bind m k w = (Ok b, w') ->
  exists a w1, m w = (Ok a, w1) /\ k a w1 = (Ok b, w').
Proof.
  unfold bind. destruct (m w) as [[a | e] w1]; [| discriminate].
  intros H. exists a, w1. auto.
Qed.

Lemma try_rollback_finally_close_Ok_inv connection body w u w' :
  try_rollback_finally_close database connection body w = (Ok u, w') ->
  exists w1, body w = (Ok tt, w1) /\ w' = Close connection :: w1.
Proof.
  unfold try_rollback_finally_close, act.
  destruct (body w) as [[[] | e] w1]; cbn [fst snd].
  - destruct (database w1 (Close connection)); intros H; inversion H.
    exists w1. auto.
  - destruct (is_Exception e); [destruct (database w1 (Rollback connection)) |];
      cbn [fst snd];
      destruct (database _ (Close connection)); intros H; inversion H.
Qed.

Ltac new_events X w1 :=
  lazymatch X with
  | w1 => constr:(@nil event)
  | ?e :: ?Y => let r := new_events Y w1 in constr:(e :: r)
  end.



(** *** The check of the copy task *)

Lemma existing_row_Ok_inv connection query w row w' :
  existing_row database fetched connection query w = (Ok row, w') ->
  (w' = Fetchone connection :: Execute connection query :: w
   /\ (row = fetched (Execute connection query :: w) \/ row = None))
  \/ (w' = Execute connection query :: w /\ row = None).
Proof.
  unfold existing_row, bind, execute, fetchone, act.
  destruct (database w (Execute connection query)) as [e |].
  - destruct e as [msg | | | |]; try discriminate.
    destruct (contains "does not exist" msg); [| discriminate].
    intros H. inversion H. right. auto.
  - destruct (database (Execute connection query :: w) (Fetchone connection))
      as [e |].
    + destruct e as [msg | | | |]; try discriminate.
      destruct (contains "does not exist" msg); [| discriminate].
      intros H. inversion H. left. auto.
    + intros H. inversion H. left. auto.
Qed.

(** X16. The copy task returns normally in two ways only. Either data for
    the date exists and [overwrite] is false: then it has executed the
    check alone, nothing is committed and the connection is left open. Or
    it has executed, in this order, the creation of the table, the delete
    exactly when [overwrite] is true, the creation of the stage and the
    copy with [FORCE=True] exactly when [overwrite] is true, then the
    commit and last the close. *)
Theorem copy_task_returns_after_skip_or_full_load overwrite connection w w1 w' :
  create_snowflake_connection key_bytes database sf_credentials sf_role
                              [("warehouse", sf_warehouse)] w
  = (Ok connection, w1) ->
  load_s3_data_to_snowflake_copy_once
    key_bytes database fetched sf_credentials sf_database sf_schema sf_table
    sf_role sf_warehouse sf_storage_integration s3_url date pattern
    sf_file_format_type overwrite w
  = (Ok tt, w') ->
  (overwrite = false
   /\ row_found (fetched (Execute connection
                            (copy_select
                               (qualified_table_name sf_database sf_schema sf_table)
                               date) :: w1)) = true
   /\ w' = Fetchone connection
           :: Execute connection
                (copy_select (qualified_table_name sf_database sf_schema sf_table)
                             date)
           :: w1)
  \/ (exists checked,
         (checked = [Fetchone connection;
                     Execute connection
                       (copy_select
                          (qualified_table_name sf_database sf_schema sf_table)
                          date)]
          \/ checked = [Execute connection
                          (copy_select
                             (qualified_table_name sf_database sf_schema sf_table)
                             date)])
         /\ w' = (Close connection
                  :: Commit connection
                  :: map (Execute connection)
                         (rev (copy_statements sf_database sf_schema sf_table
                                 sf_storage_integration s3_url date pattern
                                 sf_file_format_type overwrite))
                  ++ checked ++ w1)%list).
Proof.
  intros Hc H. unfold load_s3_data_to_snowflake_copy_once in H.
  rewrite (sf_bind_Ok _ _ _ _ _ Hc) in H.
  apply sf_bind_Ok_inv in H. destruct H as [row [w2 [Hrow H]]].
  apply existing_row_Ok_inv in Hrow.
  destruct (row_found row && negb overwrite) eqn:Hskip.
  - inversion H. subst w2. left.
    apply andb_true_iff in Hskip. destruct Hskip as [Hfound Hover].
    apply negb_true_iff in Hover.
    destruct Hrow as [[Hw [Hr | Hr]] | [Hw Hr]];
      try (subst row; discriminate Hfound).
    subst row. auto.
  - right.
    apply try_rollback_finally_close_Ok_inv in H. destruct H as [w3 [Hbody Hw']].
    apply sf_bind_Ok_inv in Hbody. destruct Hbody as [[] [v1 [H1 Hbody]]].
    apply act_Ok_inv in H1. destruct H1 as [H1 _].
    apply sf_bind_Ok_inv in Hbody. destruct Hbody as [[] [v2 [H2 Hbody]]].
    apply sf_bind_Ok_inv in Hbody. destruct Hbody as [[] [v3 [H3 Hbody]]].
    apply act_Ok_inv in H3. destruct H3 as [H3 _].
    apply sf_bind_Ok_inv in Hbody. destruct Hbody as [[] [v4 [H4 Hbody]]].
    apply act_Ok_inv in H4. destruct H4 as [H4 _].
    apply act_Ok_inv in Hbody. destruct Hbody as [H5 _].
    assert (Hchecked : exists checked,
               (checked = [Fetchone connection;
                           Execute connection
                             (copy_select
                                (qualified_table_name sf_database sf_schema sf_table)
                                date)]
                \/ checked = [Execute connection
                                (copy_select
                                   (qualified_table_name sf_database sf_schema
                                                         sf_table)
                                   date)])
               /\ w2 = (checked ++ w1)%list).
    { destruct Hrow as [[Hw _] | [Hw _]].
      - exists [Fetchone connection;
                Execute connection
                  (copy_select (qualified_table_name sf_database sf_schema sf_table)
                               date)].
        split; [left; reflexivity | exact Hw].
      - exists [Execute connection
                  (copy_select (qualified_table_name sf_database sf_schema sf_table)
                               date)].
        split; [right; reflexivity | exact Hw]. }
    destruct Hchecked as [checked [Hchecked Hw2]].
    exists checked. split; [exact Hchecked |].
    subst w' w3 v4 v3 w2. unfold copy_statements.
    destruct overwrite.
    + apply act_Ok_inv in H2. destruct H2 as [H2 _]. subst v2 v1. reflexivity.
    + inversion H2. subst v2 v1. reflexivity.
Qed.

(** X17. In the copy task, a [ProgrammingError] of the check whose message
    does not contain [does not exist] is raised by the task as it is:
    nothing is rolled back and the connection is not closed. When the
    message contains these words the table is taken to be missing, and
    the next statement attempted is the creation of the table, whatever
    [overwrite] is; the last action is then the close. *)
Theorem copy_task_check_failure overwrite connection w w1 msg :
  create_snowflake_connection key_bytes database sf_credentials sf_role
                              [("warehouse", sf_warehouse)] w
  = (Ok connection, w1) ->
  database w1 (Execute connection
                 (copy_select (qualified_table_name sf_database sf_schema sf_table)
                              date))
  = Some (ProgrammingError msg) ->
  (contains "does not exist" msg = false ->
   load_s3_data_to_snowflake_copy_once
     key_bytes database fetched sf_credentials sf_database sf_schema sf_table
     sf_role sf_warehouse sf_storage_integration s3_url date pattern
     sf_file_format_type overwrite w
   = (Raise (ProgrammingError msg),
      Execute connection
        (copy_select (qualified_table_name sf_database sf_schema sf_table) date)
      :: w1))
  /\ (contains "does not exist" msg = true ->
      exists later,
        snd (load_s3_data_to_snowflake_copy_once
               key_bytes database fetched sf_credentials sf_database sf_schema
               sf_table sf_role sf_warehouse sf_storage_integration s3_url date
               pattern sf_file_format_type overwrite w)
        = (Close connection
           :: later
           ++ [Execute connection
                 (copy_create_table
                    (qualified_table_name sf_database sf_schema sf_table));
               Execute connection
                 (copy_select (qualified_table_name sf_database sf_schema sf_table)
                              date)]
           ++ w1)%list).
Proof.
  intros Hc Hdb. split; intros Hmsg.
  - unfold load_s3_data_to_snowflake_copy_once.
    rewrite (sf_bind_Ok _ _ _ _ _ Hc).
    unfold existing_row, bind, execute, act. rewrite Hdb, Hmsg. reflexivity.
  - unfold load_s3_data_to_snowflake_copy_once.
    rewrite (sf_bind_Ok _ _ _ _ _ Hc).
    unfold existing_row. unfold bind at 1 2. unfold execute at 1, act at 1.
    rewrite Hdb, Hmsg. cbn [row_found andb].
    unfold try_rollback_finally_close, bind, execute, act, ret.
    destruct overwrite;
      repeat (cbn [fst snd];
              match goal with
              | |- context [database ?w0 ?e] => destruct (database w0 e)
              | |- context [is_Exception ?err] => destruct (is_Exception err)
              end);
      cbn [fst snd app];
      match goal with
      | |- exists later, Close _ :: ?X = _ =>
          let n := new_events X
                     (Execute connection
                        (copy_create_table
                           (qualified_table_name sf_database sf_schema sf_table))
                      :: Execute connection
                           (copy_select
                              (qualified_table_name sf_database sf_schema sf_table)
                              date)
                      :: w1) in
          exists n
      end;
      reflexivity.
Qed.

(** *** The retries *)

Local Open Scope nat_scope.

Lemma connects_cons e w :
  connects (e :: w) = if is_Connect e then S (connects w) else connects w.
Proof. unfold connects. simpl. destruct (is_Connect e); reflexivity. Qed.

Lemma sleeps_cons e w :
  sleeps (e :: w) = if is_Sleep e then S (sleeps w) else sleeps w.
Proof. unfold sleeps. simpl. destruct (is_Sleep e); reflexivity. Qed.

Lemma bounded_ret {A} (a : A) : bounded 0 (ret a).
Proof. intros w. simpl. split; [lia | reflexivity]. Qed.

Lemma bounded_lift {A} (r : Result A) : bounded 0 (lift r).
Proof. intros w. simpl. split; [lia | reflexivity]. Qed.

Lemma bounded_bind {A B} i j (m : SM A) (k : A -> SM B) :
  bounded i m -> (forall a, bounded j (k a)) -> bounded (i + j) (bind m k).
Proof.
  intros Hm Hk w. unfold bind. specialize (Hm w).
  destruct (m w) as [[a | e] w1]; cbn [snd] in *.
  - specialize (Hk a w1). destruct Hm, Hk. split; [lia | congruence].
  - destruct Hm. split; [lia | assumption].
Qed.

Lemma bounded_more {A} i j (m : SM A) : i <= j -> bounded i m -> bounded j m.
Proof. intros Hij Hm w. destruct (Hm w). split; [lia | assumption]. Qed.

Lemma bounded_act e : on_connection e -> bounded 0 (act database e).
Proof.
  intros [Hc Hs] w. rewrite act_world, connects_cons, sleeps_cons, Hc, Hs.
  split; [lia | reflexivity].
Qed.

Lemma bounded_execute connection query : bounded 0 (execute database connection query).
Proof. apply bounded_act. split; reflexivity. Qed.

Lemma bounded_fetchone connection : bounded 0 (fetchone database fetched connection).
Proof.
  intros w. unfold fetchone.
  pose proof (bounded_act (Fetchone connection) (conj eq_refl eq_refl) w) as H.
  destruct (act database (Fetchone connection) w) as [[u | e] w1]; exact H.
Qed.

Lemma bounded_connect user account pkb autocommit warehouse :
  bounded 1 (connect database user account pkb autocommit warehouse).
Proof.
  intros w. unfold connect, act.
  destruct (database w _); cbn [snd]; rewrite connects_cons, sleeps_cons;
    simpl; split; lia.
Qed.

Lemma bounded_load_private_key key password :
  bounded 0 (load_private_key key_bytes key password).
Proof. intros w. simpl. split; [lia | reflexivity]. Qed.

Lemma bounded_try connection body :
  bounded 0 body ->
  bounded 0 (try_rollback_finally_close database connection body).
Proof.
  intros Hb w. unfold try_rollback_finally_close, act. specialize (Hb w).
  destruct (body w) as [[u | e] w1]; cbn [fst snd] in *.
  - destruct (database w1 (Close connection)); cbn [snd];
      rewrite connects_cons, sleeps_cons; exact Hb.
  - destruct (is_Exception e); [destruct (database w1 (Rollback connection)) |];
      cbn [fst snd];
      destruct (database _ (Close connection)); cbn [snd];
      rewrite !connects_cons, !sleeps_cons; exact Hb.
Qed.

Lemma bounded_existing_row connection query :
  bounded 0 (existing_row database fetched connection query).
Proof.
  intros w. unfold existing_row.
  pose proof (bounded_bind 0 0 (execute database connection query)
                (fun _ => fetchone database fetched connection)
                (bounded_execute connection query)
                (fun _ => bounded_fetchone connection) w) as H.
  destruct (bind _ _ w) as [[row | e] w1]; [exact H |].
  destruct e as [msg | | | |]; try exact H.
  destruct (contains "does not exist" msg); exact H.
Qed.

Lemma bounded_create_snowflake_connection credentials role keywords :
  bounded 1 (create_snowflake_connection key_bytes database credentials role keywords).
Proof.
  unfold create_snowflake_connection.
  apply (bounded_bind 0 1); [apply bounded_lift |]. intros parameters. cbv zeta.
  apply (bounded_bind 0 1); [apply bounded_lift |]. intros key.
  apply (bounded_bind 0 1); [apply bounded_lift |]. intros password.
  apply (bounded_bind 0 1); [apply bounded_load_private_key |]. intros pkb.
  apply (bounded_bind 1 0); [apply bounded_connect |]. intros connection.
  apply (bounded_bind 0 0); [apply bounded_execute |]. intros _.
  apply (bounded_bind 0 0); [apply bounded_execute |]. intros _.
  apply bounded_ret.
Qed.

Lemma bounded_pipe_once :
  bounded 1 (load_s3_data_to_snowflake_pipe_once
               key_bytes database sf_credentials sf_database sf_schema sf_table
               sf_role sf_warehouse sf_storage_integration s3_url
               sf_file_format_type).
Proof.
  unfold load_s3_data_to_snowflake_pipe_once.
  apply (bounded_bind 1 0); [apply bounded_create_snowflake_connection |].
  intros connection. apply bounded_try.
  repeat (apply (bounded_bind 0 0); [apply bounded_execute | intros _]).
  apply bounded_act. split; reflexivity.
Qed.

Lemma bounded_copy_once overwrite :
  bounded 1 (load_s3_data_to_snowflake_copy_once
               key_bytes database fetched sf_credentials sf_database sf_schema
               sf_table sf_role sf_warehouse sf_storage_integration s3_url date
               pattern sf_file_format_type overwrite).
Proof.
  unfold load_s3_data_to_snowflake_copy_once.
  apply (bounded_bind 1 0); [apply bounded_create_snowflake_connection |].
  intros connection.
  apply (bounded_bind 0 0); [apply bounded_existing_row |]. intros row.
  destruct (row_found row && negb overwrite); [apply bounded_ret |].
  apply bounded_try.
  apply (bounded_bind 0 0); [apply bounded_execute | intros _].
  apply (bounded_bind 0 0);
    [destruct overwrite; [apply bounded_execute | apply bounded_ret] | intros _].
  repeat (apply (bounded_bind 0 0); [apply bounded_execute | intros _]).
  apply bounded_act. split; reflexivity.
Qed.

Ltac finish_tries :=
  split; [reflexivity |];
  split; [lia |];
  split; [lia |];
  split;
  [ first [discriminate | intros; lia]
  | first [intros; lia | intros _; eexists; eexists; reflexivity] ].

(** Three tries at most. *)
Lemma on_exception_max_tries_3 {A} (target : SM A) :
  bounded 1 target ->
  forall w, exists r w',
    on_exception_max_tries 3 target w = Some (r, w')
    /\ connects w' <= connects w + 3
    /\ sleeps w' <= sleeps w + 2
    /\ (forall msg, r = Raise (ProgrammingError msg) -> sleeps w' = sleeps w + 2)
    /\ (sleeps w < sleeps w' ->
        exists msg w1, target w = (Raise (ProgrammingError msg), w1)).
Proof.
  intros Hb w. unfold on_exception_max_tries. cbn [retry_tries Nat.eqb].
  pose proof (Hb w) as H1.
  destruct (target w) as [[a | e] w1] eqn:E1; cbn [snd] in H1.
  1:{ exists (Ok a), w1. finish_tries. }
  destruct e as [msg | | | |].
  2,3,4,5: eexists; eexists; finish_tries.
  pose proof (Hb (Sleep 0 :: w1)) as H2.
  rewrite connects_cons, sleeps_cons in H2. cbn [is_Connect is_Sleep] in H2.
  destruct (target (Sleep 0 :: w1)) as [[a | e] w2] eqn:E2; cbn [snd] in H2.
  1:{ exists (Ok a), w2. finish_tries. }
  destruct e as [msg2 | | | |].
  2,3,4,5: eexists; eexists; finish_tries.
  pose proof (Hb (Sleep 1 :: w2)) as H3.
  rewrite connects_cons, sleeps_cons in H3. cbn [is_Connect is_Sleep] in H3.
  destruct (target (Sleep 1 :: w2)) as [[a | e] w3] eqn:E3; cbn [snd] in H3.
  1:{ exists (Ok a), w3. finish_tries. }
  destruct e as [msg3 | | | |]; eexists; eexists; finish_tries.
Qed.

(** X18. The pipe task and the copy task, as decorated, always come to an
    end: they try at most three times, so at most three connections are
    attempted and the retry loop waits at most twice. A wait happens only
    after a try that raised [ProgrammingError], and a [ProgrammingError]
    leaves the task only after the third try, that is after two waits. *)
Theorem load_tasks_try_at_most_three_times overwrite w :
  (exists r w',
      load_s3_data_to_snowflake_pipe
        key_bytes database sf_credentials sf_database sf_schema sf_table
        sf_role sf_warehouse sf_storage_integration s3_url sf_file_format_type w
      = Some (r, w')
      /\ connects w' <= connects w + 3
      /\ sleeps w' <= sleeps w + 2
      /\ (forall msg, r = Raise (ProgrammingError msg) -> sleeps w' = sleeps w + 2)
      /\ (sleeps w < sleeps w' ->
          exists msg w1,
            load_s3_data_to_snowflake_pipe_once
              key_bytes database sf_credentials sf_database sf_schema sf_table
              sf_role sf_warehouse sf_storage_integration s3_url
              sf_file_format_type w
            = (Raise (ProgrammingError msg), w1)))
  /\ (exists r w',
         load_s3_data_to_snowflake_copy
           key_bytes database fetched sf_credentials sf_database sf_schema
           sf_table sf_role sf_warehouse sf_storage_integration s3_url date
           pattern sf_file_format_type overwrite w
         = Some (r, w')
         /\ connects w' <= connects w + 3
         /\ sleeps w' <= sleeps w + 2
         /\ (forall msg, r = Raise (ProgrammingError msg) -> sleeps w' = sleeps w + 2)
         /\ (sleeps w < sleeps w' ->
             exists msg w1,
               load_s3_data_to_snowflake_copy_once
                 key_bytes database fetched sf_credentials sf_database sf_schema
                 sf_table sf_role sf_warehouse sf_storage_integration s3_url date
                 pattern sf_file_format_type overwrite w
               = (Raise (ProgrammingError msg), w1))).
Proof.
  split.
  - apply (on_exception_max_tries_3 _ bounded_pipe_once w).
  - apply (on_exception_max_tries_3 _ (bounded_copy_once overwrite) w).
Qed.

(** *** The Google Analytics task *)

Variables bq_dataset gcs_url : string.

Lemma bind_keywords_unknown keywords : forall autocommit warehouse,
  (exists name v,
      In (name, v) keywords /\ name <> "autocommit"%string
      /\ name <> "warehouse"%string) ->
  bind_keywords keywords autocommit warehouse = Raise TypeError.
Proof.
  induction keywords as [| [name' v'] rest IH]; intros autocommit warehouse
    [name [v [Hin [Ha Hw]]]]; [destruct Hin |].
  simpl. destruct Hin as [Heq | Hin].
  - inversion Heq. subst name' v'.
    apply String.eqb_neq in Ha. apply String.eqb_neq in Hw.
    rewrite Ha, Hw. reflexivity.
  - destruct (String.eqb name' "autocommit");
      [apply IH; exists name, v; auto |].
    destruct (String.eqb name' "warehouse");
      [apply IH; exists name, v; auto | reflexivity].
Qed.

(** X19. A call of [create_snowflake_connection] with a keyword that
    names neither [autocommit] nor [warehouse] raises [TypeError] before
    anything is attempted on the service. [load_ga_data_to_snowflake]
    passes the keyword [sf_warehouse]: every call of this task raises
    [TypeError] with nothing attempted, and since this is no
    [ProgrammingError] it is not retried. *)
Theorem load_ga_data_to_snowflake_always_raises_TypeError overwrite w :
  (forall credentials role keywords,
      (exists name v,
          In (name, v) keywords /\ name <> "autocommit"%string
          /\ name <> "warehouse"%string) ->
      create_snowflake_connection key_bytes database credentials role keywords w
      = (Raise TypeError, w))
  /\ load_ga_data_to_snowflake_once
       key_bytes database fetched sf_credentials sf_database sf_schema sf_table
       sf_role sf_storage_integration bq_dataset gcs_url date sf_warehouse pattern
       overwrite w
     = (Raise TypeError, w)
  /\ load_ga_data_to_snowflake
       key_bytes database fetched sf_credentials sf_database sf_schema sf_table
       sf_role sf_storage_integration bq_dataset gcs_url date sf_warehouse pattern
       overwrite w
     = Some (Raise TypeError, w)
  /\ bind_keywords [("warehouse", sf_warehouse)] (JBool false) JNull
     = Ok (JBool false, sf_warehouse).
Proof.
  assert (Hcall : forall credentials role keywords,
             (exists name v,
                 In (name, v) keywords /\ name <> "autocommit"%string
                 /\ name <> "warehouse"%string) ->
             create_snowflake_connection key_bytes database credentials role
                                         keywords w
             = (Raise TypeError, w)).
  { intros credentials role keywords Hunknown.
    unfold create_snowflake_connection, bind, lift.
    rewrite (bind_keywords_unknown keywords _ _ Hunknown). reflexivity. }
  assert (Hga : load_ga_data_to_snowflake_once
                  key_bytes database fetched sf_credentials sf_database sf_schema
                  sf_table sf_role sf_storage_integration bq_dataset gcs_url date
                  sf_warehouse pattern overwrite w
                = (Raise TypeError, w)).
  { unfold load_ga_data_to_snowflake_once.
    apply sf_bind_Raise. apply Hcall.
    exists "sf_warehouse"%string, sf_warehouse.
    split; [left; reflexivity |]. split; discriminate. }
  split; [exact Hcall |]. split; [exact Hga |]. split; [| reflexivity].
  unfold load_ga_data_to_snowflake, on_exception_max_tries. cbn [retry_tries].
  rewrite Hga. reflexivity.
Qed.

End TaskFacts.

(** ** The tasks, run *)

(** X12 at work. *)
Lemma names_of_a_table :
  qualified_stage_name "db" "sch" "tbl" = "db.sch.tbl_stage"
  /\ qualified_pipe_name "db" "sch" "tbl" = "db.sch.tbl_pipe"
  /\ qualified_stage_name "db" "sch" "tbl" <> qualified_pipe_name "db" "sch" "tbl".
Proof.
  destruct (stage_and_pipe_names_extend_the_table_name "db" "sch" "tbl")
    as [Hs [Hp [_ [_ [Hne _]]]]].
  split; [rewrite Hs; reflexivity |]. split; [rewrite Hp; reflexivity | exact Hne].
Defined.

(** X13 at work: credentials with a key and no passphrase. *)
Lemma credentials_without_passphrase :
  create_snowflake_connection any_key willing [("private_key", JStr "PEM")] "loader"
                              [("warehouse", JStr "wh")] []
  = (Raise AttributeError, []).
Proof.
  apply (credentials_without_key_or_passphrase_raise_AttributeError
           any_key willing [("private_key", JStr "PEM")] "loader"
           [("warehouse", JStr "wh")] (JBool false, JStr "wh") []).
  - reflexivity.
  - right. reflexivity.
Defined.

(** X14 at work: a first connection. *)
Lemma first_connection_switches_role_and_time_zone :
  create_snowflake_connection any_key willing credentials "loader"
                              [("warehouse", JStr "wh")] []
  = (Ok 0%nat,
     [Execute 0 "ALTER SESSION SET TIMEZONE = 'UTC'";
      Execute 0 "USE ROLE loader";
      Connect (JStr "loader") (JStr "acme") "PEM" (JBool false) (JStr "wh")]).
Proof.
  pose proof (create_snowflake_connection_attempts
                any_key willing credentials "loader" [("warehouse", JStr "wh")] [])
    as H.
  destruct (create_snowflake_connection any_key willing credentials "loader"
                                        [("warehouse", JStr "wh")] [])
    as [[connection | e] w'] eqn:E.
  - destruct H as [Hconnection _]. vm_compute in E. inversion E. reflexivity.
  - vm_compute in E. discriminate E.
Defined.


(** X16 at work: data exists and [overwrite] is false. *)
Lemma existing_data_is_not_loaded_again :
  load_s3_data_to_snowflake_copy_once
    any_key willing one_row credentials "db" "sch" "tbl" "loader" (JStr "wh")
    "si" "s3://bucket" "2020-01-01" ".*" "JSON" false []
  = (Ok tt,
     [Fetchone 0;
      Execute 0 (copy_select "db.sch.tbl" "2020-01-01");
      Execute 0 "ALTER SESSION SET TIMEZONE = 'UTC'";
      Execute 0 "USE ROLE loader";
      Connect (JStr "loader") (JStr "acme") "PEM" (JBool false) (JStr "wh")]).
Proof.
  assert (Hrun : load_s3_data_to_snowflake_copy_once
                   any_key willing one_row credentials "db" "sch" "tbl" "loader"
                   (JStr "wh") "si" "s3://bucket" "2020-01-01" ".*" "JSON" false []
                 = (Ok tt,
                    snd (load_s3_data_to_snowflake_copy_once
                           any_key willing one_row credentials "db" "sch" "tbl"
                           "loader" (JStr "wh") "si" "s3://bucket" "2020-01-01"
                           ".*" "JSON" false [])))
    by reflexivity.
  destruct (copy_task_returns_after_skip_or_full_load
              any_key willing one_row credentials "db" "sch" "tbl" "loader"
              (JStr "wh") "si" "s3://bucket" "2020-01-01" ".*" "JSON" false
              0%nat []
              [Execute 0 "ALTER SESSION SET TIMEZONE = 'UTC'";
               Execute 0 "USE ROLE loader";
               Connect (JStr "loader") (JStr "acme") "PEM" (JBool false) (JStr "wh")]
              _ eq_refl Hrun)
    as [[_ [_ Hw]] | [checked [_ Hw]]].
  - rewrite Hrun, Hw. reflexivity.
  - exfalso. vm_compute in Hw. discriminate Hw.
Defined.

(** X17 at work: the table does not exist yet, so it is created and the
    load runs to its close. *)
Lemma missing_table_is_created :
  exists later,
    snd (load_s3_data_to_snowflake_copy_once
           any_key missing_table no_row credentials "db" "sch" "tbl" "loader"
           (JStr "wh") "si" "s3://bucket" "2020-01-01" ".*" "JSON" false [])
    = (Close 0 :: later
       ++ [Execute 0 (copy_create_table "db.sch.tbl");
           Execute 0 (copy_select "db.sch.tbl" "2020-01-01")]
       ++ [Execute 0 "ALTER SESSION SET TIMEZONE = 'UTC'";
           Execute 0 "USE ROLE loader";
           Connect (JStr "loader") (JStr "acme") "PEM" (JBool false) (JStr "wh")])%list.
Proof.
  destruct (copy_task_check_failure
              any_key missing_table no_row credentials "db" "sch" "tbl" "loader"
              (JStr "wh") "si" "s3://bucket" "2020-01-01" ".*" "JSON" false
              0%nat []
              [Execute 0 "ALTER SESSION SET TIMEZONE = 'UTC'";
               Execute 0 "USE ROLE loader";
               Connect (JStr "loader") (JStr "acme") "PEM" (JBool false) (JStr "wh")]
              "Object 'DB.SCH.TBL' does not exist or not authorized."
              eq_refl eq_refl)
    as [_ Hmissing].
  apply Hmissing. reflexivity.
Defined.

(** X18 at work: the service refuses every statement, so the pipe task
    tries three times, waits twice and raises. *)
Lemma refused_pipe_task_tries_three_times :
  exists w',
    load_s3_data_to_snowflake_pipe
      any_key (refusing "no") credentials "db" "sch" "tbl" "loader" (JStr "wh")
      "si" "s3://bucket" "JSON" []
    = Some (Raise (ProgrammingError "no"), w')
    /\ connects w' = 3%nat
    /\ sleeps w' = 2%nat.
Proof.
  destruct (load_tasks_try_at_most_three_times
              any_key (refusing "no") one_row credentials "db" "sch" "tbl" "loader"
              (JStr "wh") "si" "s3://bucket" "2020-01-01" ".*" "JSON" false [])
    as [[r [w' [Hrun [_ [_ [Hwaits _]]]]]] _].
  assert (Hr : r = Raise (ProgrammingError "no")).
  { vm_compute in Hrun. inversion Hrun. reflexivity. }
  exists w'. split; [rewrite Hrun, Hr; reflexivity |].
  split.
  - vm_compute in Hrun. inversion Hrun. reflexivity.
  - apply (Hwaits "no" Hr).
Defined.

(** X19 at work: a misspelt keyword. *)
Lemma misspelt_keyword_raises_TypeError :
  create_snowflake_connection any_key willing credentials "loader"
                              [("warehouse", JStr "wh"); ("auto_commit", JBool true)] []
  = (Raise TypeError, []).
Proof.
  destruct (load_ga_data_to_snowflake_always_raises_TypeError
              any_key willing one_row credentials "db" "sch" "tbl" "loader"
              (JStr "wh") "si" "2020-01-01" ".*" "bq" "gs://bucket" false [])
    as [Hcall _].
  apply Hcall. exists "auto_commit"%string, (JBool true).
  split; [right; left; reflexivity |]. split; discriminate.
Defined.
